(** * Authentication and session lifecycle of the full-stack template

    A shallow embedding of the NestJS [AuthService] / [FirebaseAdminService]
    (backend), of the axios response interceptor and of the entry screen of
    the Expo client, with the properties the specification states about
    them.

    Conventions of the embedding:
    - JavaScript strings are [string]; [undefined]/[null] is [None];
    - a [Date] is its millisecond timestamp, an integer [Z];
    - thrown exceptions are values of [Exception], carried by a state and
      exception monad over the relational store;
    - everything the service obtains from outside (clock, [uuidv4()],
      Google's tokeninfo endpoint, bcrypt) is an explicit field of [Env],
      chosen by the environment at each call; the clock is read once per
      call;
    - the constraints of the two tables are those of schema.prisma and of
      the migration that adds the unique index on (provider, provider_id). *)

From Stdlib Require Import String Ascii List ZArith Bool Lia Permutation.
Import ListNotations.
Open Scope string_scope.
Open Scope Z_scope.

(** ** [parseExpiryToSeconds] (auth.service.ts) *)

Module Expiry.

(** [\d]: an ASCII digit. *)
Definition is_digit (c : ascii) : bool :=
  let n := nat_of_ascii c in (Nat.leb 48 n && Nat.leb n 57)%bool.

(** [[dhms]] *)
Definition is_unit (c : ascii) : bool :=
  match c with
  | "d"%char | "h"%char | "m"%char | "s"%char => true
  | _ => false
  end.

(** [(\d+)] is greedy: it takes the longest prefix of digits. *)
Fixpoint span_digits (s : string) : string * string :=
  match s with
  | String c r =>
      if is_digit c
      then let (ds, rest) := span_digits r in (String c ds, rest)
      else ("", s)
  | "" => ("", "")
  end.

(** [expiry.match(/^(\d+)([dhms])$/)]: groups 1 and 2 on a match.  A unit
    letter is not a digit, so the greedy scan never has to backtrack; [$]
    has no [m] flag and only matches at the very end of the input. *)
Definition expiry_match (s : string) : option (string * ascii) :=
  match span_digits s with
  | (String c ds, String u "") =>
      if is_unit u then Some (String c ds, u) else None
  | _ => None
  end.

Definition digit_value (c : ascii) : Z := Z.of_nat (nat_of_ascii c) - 48.

Fixpoint parseInt_from (acc : Z) (s : string) : Z :=
  match s with
  | "" => acc
  | String c r => parseInt_from (10 * acc + digit_value c) r
  end.

(** [parseInt(match[1], 10)] on a string of decimal digits.  The value is
    kept exact; a JavaScript number agrees with it up to 2^53. *)
Definition parseInt (s : string) : Z := parseInt_from 0 s.

Definition parseExpiryToSeconds (expiry : string) : Z :=
  match expiry_match expiry with
  | None => 900
  | Some (digits, unit) =>
      let value := parseInt digits in
      match unit with
      | "d"%char => value * 86400
      | "h"%char => value * 3600
      | "m"%char => value * 60
      | "s"%char => value
      | _ => 900
      end
  end.

(** [configured || fallback] on strings: [undefined] and the empty string
    are both falsy. *)
Definition or_default (configured : option string) (fallback : string) : string :=
  match configured with
  | Some (String c r) => String c r
  | _ => fallback
  end.

(** The strings the regular expression denotes, stated without reference to
    the scanner: a non-empty run of digits followed by one unit letter. *)
Fixpoint all_digits (s : string) : Prop :=
  match s with
  | "" => True
  | String c r => is_digit c = true /\ all_digits r
  end.

Definition well_formed (s : string) : Prop :=
  exists ds u, s = ds ++ String u "" /\ ds <> "" /\ all_digits ds
               /\ In u ["d"; "h"; "m"; "s"]%char.

End Expiry.

(** ** The backend: relational store, exceptions and the service monad *)

Module Backend.

Inductive Role := USER | ADMIN.

(** Row of table [users] (schema.prisma, model User). *)
Module User.
Record t := mk {
  id : string;
  email : string;
  password : option string;
  provider : string;
  providerId : option string;
  firstName : option string;
  lastName : option string;
  avatarUrl : option string;
  role : Role;
  hasCompletedOnboarding : bool;
  createdAt : Z;
  updatedAt : Z;
  deletedAt : option Z
}.
End User.

(** Row of table [refresh_tokens] (model RefreshToken). *)
Module RefreshToken.
Record t := mk {
  id : string;
  token : string;
  userId : string;
  expiresAt : Z;
  createdAt : Z;
  revokedAt : option Z
}.
End RefreshToken.

Record Db := mkDb {
  users : list User.t;
  refresh_tokens : list RefreshToken.t
}.

(** What a request handler can throw.  Nest answers an
    [UnauthorizedException] with 401 and a [NotFoundException] with 404;
    any other thrown value is not an [HttpException] and is answered with
    500. *)
Inductive Exception :=
| UnauthorizedException (message : string)
| NotFoundException (message : string)
| Error (message : string)
| TypeError (message : string)
| PrismaUniqueConstraint (target : string)   (* P2002 *)
| PrismaForeignKey (field : string)          (* P2003 *)
| PrismaRecordNotFound.                      (* P2025 *)

Definition is_unauthorized (e : Exception) : bool :=
  match e with UnauthorizedException _ => true | _ => false end.

Inductive Level := LOG | WARN | ERROR.

Record World := mkWorld {
  db : Db;
  logger : list (Level * string)
}.

Inductive Outcome (A : Type) :=
| Return (a : A)
| Throw (e : Exception).
Arguments Return {A} a.
Arguments Throw {A} e.

(** State and exception monad of a request handler: a handler that throws
    keeps the writes it made before throwing. *)
Definition M (A : Type) : Type := World -> Outcome A * World.

Definition ret {A} (a : A) : M A := fun w => (Return a, w).
Definition throw {A} (e : Exception) : M A := fun w => (Throw e, w).
Definition bind {A B} (m : M A) (k : A -> M B) : M B :=
  fun w => match m w with
           | (Return a, w') => k a w'
           | (Throw e, w') => (Throw e, w')
           end.
(** [try { m } catch (error) { h }] *)
Definition try_catch {A} (m : M A) (h : Exception -> M A) : M A :=
  fun w => match m w with
           | (Return a, w') => (Return a, w')
           | (Throw e, w') => h e w'
           end.

Notation "x <- m ;; k" := (bind m (fun x => k))
  (at level 61, m at next level, right associativity).
Notation "m ;;; k" := (bind m (fun _ => k))
  (at level 61, right associativity).

(** [m] relates the world it starts in to the world it leaves. *)
Definition respects (R : World -> World -> Prop) {A} (m : M A) : Prop :=
  forall w, R w (snd (m w)).

Definition get_db : M Db := fun w => (Return (db w), w).
Definition put_db (d : Db) : M unit :=
  fun w => (Return tt, mkWorld d (logger w)).
Definition log_at (l : Level) (message : string) : M unit :=
  fun w => (Return tt, mkWorld (db w) (logger w ++ [(l, message)])).

(** Claims of Google's tokeninfo answer that the service reads
    ([GoogleUserInfo]); a field the answer lacks is [None]. *)
Record GoogleUserInfo := mkGoogleUserInfo {
  aud : string;
  sub : string;
  g_email : option string;
  given_name : option string;
  family_name : option string;
  picture : option string
}.

(** [ConfigService.get] of the keys the module reads. *)
Record Config := mkConfig {
  jwt_secret : option string;
  jwt_expiresIn : option string;
  jwt_refreshExpiresIn : option string;
  firebase_webClientId : option string;
  firebase_iosClientId : option string
}.

(** The collaborators of one service call. *)
Record Env := mkEnv {
  now : Z;                                   (* new Date() *)
  uuid_user : string;                        (* @default(uuid()) of User.id *)
  uuid_row : string;                         (* @default(uuid()) of RefreshToken.id *)
  uuid_token : string;                       (* uuidv4() *)
  tokeninfo : string -> option GoogleUserInfo; (* None: the GET rejects *)
  bcrypt_hash : string -> string;
  bcrypt_compare : string -> string -> bool
}.

(** The payload the access token carries and its lifetime in seconds. *)
Record AccessToken := mkAccessToken {
  at_sub : string;
  at_email : string;
  at_role : Role;
  at_iat : Z;
  at_expiresIn : Z
}.

Record Tokens := mkTokens {
  accessToken : AccessToken;
  refreshToken : string
}.

(** The [select]ed columns of a user. *)
Record Profile := mkProfile {
  p_id : string;
  p_email : string;
  p_firstName : option string;
  p_lastName : option string;
  p_avatarUrl : option string;
  p_role : Role;
  p_hasCompletedOnboarding : bool;
  p_createdAt : Z
}.

Definition select_profile (u : User.t) : Profile :=
  mkProfile (User.id u) (User.email u) (User.firstName u) (User.lastName u)
            (User.avatarUrl u) (User.role u) (User.hasCompletedOnboarding u)
            (User.createdAt u).

Record AuthResponse := mkAuthResponse {
  user : Profile;
  tokens : Tokens
}.

(** JavaScript helpers. *)
Definition truthy (o : option string) : bool :=
  match o with Some (String _ _) => true | _ => false end.
(** [x || null] *)
Definition or_null (o : option string) : option string :=
  if truthy o then o else None.
(** [a !== b] for a string [a] and a possibly undefined [b] *)
Definition strict_neq (a : string) (b : option string) : bool :=
  match b with Some b' => negb (String.eqb a b') | None => true end.
(** [`${x}`] *)
Definition show (o : option string) : string :=
  match o with Some s => s | None => "undefined" end.
Definition is_null {A} (o : option A) : bool :=
  match o with None => true | Some _ => false end.
Definition same_opt (a b : option string) : bool :=
  match a, b with
  | Some x, Some y => String.eqb x y
  | _, _ => false    (* NULLs never collide in a unique index *)
  end.

End Backend.

(** ** The Prisma calls the services make *)

Module Prisma.
Import Backend.

(** [where] clauses. *)
Definition where_id (i : string) (u : User.t) : bool := String.eqb (User.id u) i.
Definition where_email (e : string) (u : User.t) : bool := String.eqb (User.email u) e.
Definition deletedAt_null (u : User.t) : bool := is_null (User.deletedAt u).
Definition where_token (t : string) (r : RefreshToken.t) : bool :=
  String.eqb (RefreshToken.token r) t.
Definition where_row_id (i : string) (r : RefreshToken.t) : bool :=
  String.eqb (RefreshToken.id r) i.

Definition same_identity (u x : User.t) : bool :=
  String.eqb (User.provider x) (User.provider u)
  && same_opt (User.providerId x) (User.providerId u).

(** [prisma.user.findUnique({ where })] *)
Definition user_findUnique (where_ : User.t -> bool) : M (option User.t) :=
  d <- get_db ;; ret (find where_ (users d)).

(** [prisma.user.create({ data })]: the primary key, [email @unique] and
    [@@unique([provider, providerId])] are enforced by the store. *)
Definition user_create (u : User.t) : M User.t :=
  d <- get_db ;;
  if existsb (where_id (User.id u)) (users d)
  then throw (PrismaUniqueConstraint "id")
  else if existsb (where_email (User.email u)) (users d)
  then throw (PrismaUniqueConstraint "email")
  else if existsb (same_identity u) (users d)
  then throw (PrismaUniqueConstraint "provider,provider_id")
  else put_db (mkDb (users d ++ [u]) (refresh_tokens d)) ;;; ret u.

(** Writing [data] to the rows with id [i], the others as they are. *)
Definition in_place (i : string) (data : User.t -> User.t) (x : User.t) : User.t :=
  if where_id i x then data x else x.

(** [prisma.user.update({ where: { id }, data })] *)
Definition user_update (i : string) (data : User.t -> User.t) : M User.t :=
  d <- get_db ;;
  match find (where_id i) (users d) with
  | None => throw PrismaRecordNotFound
  | Some u =>
      let others := filter (fun x => negb (where_id i x)) (users d) in
      if existsb (where_email (User.email (data u))) others
      then throw (PrismaUniqueConstraint "email")
      else if existsb (same_identity (data u)) others
      then throw (PrismaUniqueConstraint "provider,provider_id")
      else
        put_db (mkDb (map (in_place i data) (users d)) (refresh_tokens d)) ;;;
        ret (data u)
  end.

(** [prisma.user.upsert({ where: { email }, create, update })] *)
Definition user_upsert (e : string) (create : User.t) (update : User.t -> User.t)
  : M User.t :=
  found <- user_findUnique (where_email e) ;;
  match found with
  | Some u => user_update (User.id u) update
  | None => user_create create
  end.

(** [prisma.refreshToken.findUnique({ where: { token }, include: { user: true } })] *)
Definition refreshToken_findUnique (t : string)
  : M (option (RefreshToken.t * option User.t)) :=
  d <- get_db ;;
  match find (where_token t) (refresh_tokens d) with
  | None => ret None
  | Some r => ret (Some (r, find (where_id (RefreshToken.userId r)) (users d)))
  end.

Definition revoke (at_ : Z) (r : RefreshToken.t) : RefreshToken.t :=
  RefreshToken.mk (RefreshToken.id r) (RefreshToken.token r) (RefreshToken.userId r)
                  (RefreshToken.expiresAt r) (RefreshToken.createdAt r) (Some at_).

(** [prisma.refreshToken.update({ where: { id }, data: { revokedAt } })] *)
Definition refreshToken_update_revokedAt (i : string) (at_ : Z) : M unit :=
  d <- get_db ;;
  if existsb (where_row_id i) (refresh_tokens d)
  then put_db (mkDb (users d)
                    (map (fun r => if where_row_id i r then revoke at_ r else r)
                         (refresh_tokens d)))
  else throw PrismaRecordNotFound.

(** [prisma.refreshToken.updateMany({ where: { token }, data: { revokedAt } })] *)
Definition refreshToken_updateMany_revokedAt (t : string) (at_ : Z) : M unit :=
  d <- get_db ;;
  put_db (mkDb (users d)
               (map (fun r => if where_token t r then revoke at_ r else r)
                    (refresh_tokens d))).

(** [prisma.refreshToken.create({ data: { token, userId, expiresAt } })]:
    [token @unique], the primary key and the relation to [users] are
    enforced by the store. *)
Definition refreshToken_create (i t uid : string) (expires created : Z) : M unit :=
  d <- get_db ;;
  if existsb (where_row_id i) (refresh_tokens d)
  then throw (PrismaUniqueConstraint "id")
  else if existsb (where_token t) (refresh_tokens d)
  then throw (PrismaUniqueConstraint "token")
  else if negb (existsb (where_id uid) (users d))
  then throw (PrismaForeignKey "user_id")
  else put_db (mkDb (users d)
                    (refresh_tokens d
                     ++ [RefreshToken.mk i t uid expires created None])).

End Prisma.

(** ** [FirebaseAdminService], [AuthService], [UsersService], [JwtStrategy] *)

Module Service.
Import Backend Prisma.

Section WithCollaborators.

Variable cfg : Config.
Variable env : Env.

(** [axios.get('https://oauth2.googleapis.com/tokeninfo', ...)] *)
Definition axios_get_tokeninfo (idToken : string) : M GoogleUserInfo :=
  match tokeninfo env idToken with
  | Some data => ret data
  | None => throw (Error "Request failed with status code 400")
  end.

(** [FirebaseAdminService.verifyGoogleToken] *)
Definition verifyGoogleToken (idToken : string) : M GoogleUserInfo :=
  try_catch
    (data <- axios_get_tokeninfo idToken ;;
     let expectedAudience := firebase_webClientId cfg in
     let iosAudience := firebase_iosClientId cfg in
     (if strict_neq (aud data) expectedAudience && strict_neq (aud data) iosAudience
      then log_at WARN ("Token audience mismatch: expected " ++ show expectedAudience
                        ++ " or " ++ show iosAudience ++ ", got " ++ aud data)
      else ret tt) ;;;
     log_at LOG ("Google token verified for user: " ++ show (g_email data)) ;;;
     ret data)
    (fun error =>
       log_at ERROR "Failed to verify Google token" ;;;
       throw (Error "Invalid Google token")).

(** [jwtService.sign(payload, { secret, expiresIn })] *)
Definition jwt_sign (sub_ email_ : string) (role_ : Role) (expiresIn : Z)
  : M AccessToken :=
  if truthy (jwt_secret cfg)
  then ret (mkAccessToken sub_ email_ role_ (now env) expiresIn)
  else throw (Error "secretOrPrivateKey must have a value").

(** Lifetime of an access token, in seconds. *)
Definition accessExpiresIn : Z :=
  let expiresInStr := Expiry.or_default (jwt_expiresIn cfg) "15m" in
  Expiry.parseExpiryToSeconds expiresInStr.

(** Lifetime of a refresh credential, in seconds. *)
Definition refreshSeconds : Z :=
  let refreshExpiresIn := Expiry.or_default (jwt_refreshExpiresIn cfg) "7d" in
  Expiry.parseExpiryToSeconds refreshExpiresIn.

(** The [useFactory] of [JwtModule.registerAsync] (auth.module.ts): the
    default [signOptions.expiresIn] of the module. *)
Definition jwtModuleExpiresIn : Z :=
  let expiresInStr := Expiry.or_default (jwt_expiresIn cfg) "15m" in
  match Expiry.expiry_match expiresInStr with
  | Some (digits, unit) =>
      let value := Expiry.parseInt digits in
      match unit with
      | "d"%char => value * 86400
      | "h"%char => value * 3600
      | "m"%char => value * 60
      | "s"%char => value
      | _ => 900
      end
  | None => 900
  end.

(** [AuthService.generateTokens] *)
Definition generateTokens (userId email_ : string) (role_ : Role) : M Tokens :=
  let expiresIn := accessExpiresIn in
  accessToken_ <- jwt_sign userId email_ role_ expiresIn ;;
  let refreshToken_ := uuid_token env in
  let expiresAt := now env + 1000 * refreshSeconds in
  refreshToken_create (uuid_row env) refreshToken_ userId expiresAt (now env) ;;;
  ret (mkTokens accessToken_ refreshToken_).

Definition google_create (email_ : string) (g : GoogleUserInfo) : User.t :=
  User.mk (uuid_user env) email_ None "google" (Some (sub g))
          (or_null (given_name g)) (or_null (family_name g)) (or_null (picture g))
          USER false (now env) (now env) None.

Definition google_update (g : GoogleUserInfo) (u : User.t) : User.t :=
  User.mk (User.id u) (User.email u) (User.password u) (User.provider u)
          (Some (sub g))
          (User.firstName u) (User.lastName u) (or_null (picture g))
          (User.role u) (User.hasCompletedOnboarding u)
          (User.createdAt u) (now env) (User.deletedAt u).

(** [AuthService.loginWithGoogle] *)
Definition loginWithGoogle (idToken : string) : M AuthResponse :=
  googleUser <- verifyGoogleToken idToken ;;
  match g_email googleUser with
  | Some (String c r) =>
      let email_ := String c r in
      u <- user_upsert email_ (google_create email_ googleUser)
                       (google_update googleUser) ;;
      let user_ := select_profile u in
      tokens_ <- generateTokens (p_id user_) (p_email user_) (p_role user_) ;;
      ret (mkAuthResponse user_ tokens_)
  | _ => throw (UnauthorizedException "Email not provided by Google")
  end.

(** [AuthService.register]; its [select] omits [avatarUrl], which is null
    on the row it has just created. *)
Definition register (email_ password_ : string) (firstName_ lastName_ : option string)
  : M AuthResponse :=
  existingUser <- user_findUnique (where_email email_) ;;
  match existingUser with
  | Some _ => throw (UnauthorizedException "Email already registered")
  | None =>
      let hashedPassword := bcrypt_hash env password_ in
      u <- user_create (User.mk (uuid_user env) email_ (Some hashedPassword) "email"
                                None firstName_ lastName_ None USER false
                                (now env) (now env) None) ;;
      let user_ := select_profile u in
      tokens_ <- generateTokens (p_id user_) (p_email user_) (p_role user_) ;;
      ret (mkAuthResponse user_ tokens_)
  end.

(** [AuthService.login] *)
Definition login (email_ password_ : string) : M AuthResponse :=
  found <- user_findUnique (fun u => where_email email_ u && deletedAt_null u) ;;
  match found with
  | None => throw (UnauthorizedException "Invalid credentials")
  | Some u =>
      if negb (String.eqb (User.provider u) "email")
      then throw (UnauthorizedException "Please use OAuth to sign in")
      else if negb (truthy (User.password u))
      then throw (UnauthorizedException "Invalid credentials")
      else if negb (bcrypt_compare env password_ (show (User.password u)))
      then throw (UnauthorizedException "Invalid credentials")
      else
        tokens_ <- generateTokens (User.id u) (User.email u) (User.role u) ;;
        ret (mkAuthResponse (select_profile u) tokens_)
  end.

(** [AuthService.getMe] *)
Definition getMe (userId : string) : M Profile :=
  found <- user_findUnique (fun u => where_id userId u && deletedAt_null u) ;;
  match found with
  | None => throw (UnauthorizedException "User not found")
  | Some u => ret (select_profile u)
  end.

Definition onboarding_done (u : User.t) : User.t :=
  User.mk (User.id u) (User.email u) (User.password u) (User.provider u)
          (User.providerId u) (User.firstName u) (User.lastName u) (User.avatarUrl u)
          (User.role u) true (User.createdAt u) (now env) (User.deletedAt u).

(** [AuthService.completeOnboarding]; its [select] leaves out
    [createdAt]. *)
Definition completeOnboarding (userId : string) : M Profile :=
  u <- user_update userId onboarding_done ;;
  ret (select_profile u).

(** [AuthService.refreshTokens] *)
Definition refreshTokens (refreshToken_ : string) : M Tokens :=
  storedToken <- refreshToken_findUnique refreshToken_ ;;
  match storedToken with
  | None => throw (UnauthorizedException "Invalid refresh token")
  | Some (stored, owner) =>
      if negb (is_null (RefreshToken.revokedAt stored))
         || (RefreshToken.expiresAt stored <? now env)
      then throw (UnauthorizedException "Invalid refresh token")
      else
        refreshToken_update_revokedAt (RefreshToken.id stored) (now env) ;;;
        match owner with
        | None => throw (TypeError "Cannot read properties of null (reading 'id')")
        | Some u => generateTokens (User.id u) (User.email u) (User.role u)
        end
  end.

(** [AuthService.logout] *)
Definition logout (refreshToken_ : string) : M unit :=
  refreshToken_updateMany_revokedAt refreshToken_ (now env).

(** [UsersService.findOne] *)
Definition findOne (id_ : string) : M User.t :=
  found <- user_findUnique (fun u => where_id id_ u && deletedAt_null u) ;;
  match found with
  | None => throw (NotFoundException "User not found")
  | Some u => ret u
  end.

Definition soft_delete (u : User.t) : User.t :=
  User.mk (User.id u) (User.email u) (User.password u) (User.provider u)
          (User.providerId u) (User.firstName u) (User.lastName u) (User.avatarUrl u)
          (User.role u) (User.hasCompletedOnboarding u)
          (User.createdAt u) (now env) (Some (now env)).

(** [UsersService.remove]: the soft delete. *)
Definition remove (id_ : string) : M unit :=
  findOne id_ ;;;
  user_update id_ soft_delete ;;;
  ret tt.

(** [JwtStrategy.validate] on the [sub] of a verified access token. *)
Definition validate (payload_sub : option string) : M unit :=
  match payload_sub with
  | Some (String c r) =>
      found <- user_findUnique
                 (fun u => where_id (String c r) u && deletedAt_null u) ;;
      match found with
      | None => throw (UnauthorizedException "User not found")
      | Some _ => ret tt
      end
  | _ => throw (UnauthorizedException "Invalid token")
  end.

End WithCollaborators.

(** One request to the backend, as the controller dispatches it. *)
Inductive Request :=
| PostGoogle (idToken : string)
| PostRegister (email_ password_ : string) (firstName_ lastName_ : option string)
| PostLogin (email_ password_ : string)
| GetMe (userId : string)
| PatchOnboarding (userId : string)
| PostRefresh (refreshToken_ : string)
| PostLogout (refreshToken_ : string)
| DeleteUser (id_ : string).

(** The store after a request, whatever it answered. *)
Definition handle (cfg : Config) (env : Env) (q : Request) (w : World) : World :=
  match q with
  | PostGoogle t => snd (loginWithGoogle cfg env t w)
  | PostRegister e p f l => snd (register cfg env e p f l w)
  | PostLogin e p => snd (login cfg env e p w)
  | GetMe i => snd (getMe i w)
  | PatchOnboarding i => snd (completeOnboarding env i w)
  | PostRefresh t => snd (refreshTokens cfg env t w)
  | PostLogout t => snd (logout env t w)
  | DeleteUser i => snd (remove env i w)
  end.

(** A history of requests, each with the collaborators it met. *)
Fixpoint run (cfg : Config) (history : list (Env * Request)) (w : World) : World :=
  match history with
  | [] => w
  | (env, q) :: rest => run cfg rest (handle cfg env q w)
  end.

Definition empty_world : World := mkWorld (mkDb [] []) [].

End Service.

(** ** The mobile client: session store, axios instance, entry screen *)

Module Client.

(** The fields of the client's [User] that the code below reads. *)
Record User := mkUser {
  id : string;
  email : string;
  hasCompletedOnboarding : bool
}.

(** [AuthState] of auth.store.ts. *)
Record AuthState := mkAuthState {
  user : option User;
  accessToken : option string;
  refreshToken : option string;
  isAuthenticated : bool;
  isLoading : bool;
  _hasHydrated : bool
}.

Definition initialState : AuthState :=
  mkAuthState None None None false false false.

Definition setAccessToken (token : option string) (s : AuthState) : AuthState :=
  mkAuthState (user s) token (refreshToken s) (isAuthenticated s) (isLoading s)
              (_hasHydrated s).

Definition setHasHydrated (state : bool) (s : AuthState) : AuthState :=
  mkAuthState (user s) (accessToken s) (refreshToken s) (isAuthenticated s)
              (isLoading s) state.

(** [login(user, accessToken, refreshToken)]: its first statement reads
    [user.id], which throws a TypeError on a null user ([None] here). *)
Definition login (u : option User) (access refresh : option string) (s : AuthState)
  : option AuthState :=
  match u with
  | None => None
  | Some u' =>
      Some (mkAuthState (Some u') access refresh true (isLoading s) (_hasHydrated s))
  end.

(** [logout()]: [googleSignIn.signOut()] swallows its own errors. *)
Definition logout (s : AuthState) : AuthState :=
  mkAuthState None None None false (isLoading s) (_hasHydrated s).

(** What [partialize] persists under "auth-storage". *)
Record Persisted := mkPersisted {
  saved_user : option User;
  saved_accessToken : option string;
  saved_refreshToken : option string;
  saved_isAuthenticated : bool
}.

(** Rehydration: the persisted fields are merged into the state, then the
    [onRehydrateStorage] callback calls [setHasHydrated(true)]. *)
Definition rehydrate (p : option Persisted) (s : AuthState) : AuthState :=
  setHasHydrated true
    match p with
    | Some p' => mkAuthState (saved_user p') (saved_accessToken p')
                             (saved_refreshToken p') (saved_isAuthenticated p')
                             (isLoading s) (_hasHydrated s)
    | None => s
    end.

Definition truthy (o : option string) : bool :=
  match o with Some (String _ _) => true | _ => false end.
Definition show (o : option string) : string :=
  match o with Some s => s | None => "undefined" end.

(** *** api.ts *)

(** An axios request config; [_retry] is the flag the interceptor adds. *)
Record RequestConfig := mkRequestConfig {
  url : string;
  Authorization : option string;
  _retry : bool
}.

Inductive Body :=
| Envelope (data : string)     (* { data, success, timestamp } *)
| Plain (data : string).

(** What the transport gives back for one request. *)
Inductive Reply :=
| Http (status : Z) (body : Body)
| NoResponse.

(** What [axios.post(`${API_URL}/auth/refresh`)] gives back: the two fields
    destructured from [response.data], or a rejection. *)
Inductive RefreshReply :=
| RefreshResolved (accessToken_ newRefreshToken : option string)
| RefreshRejected.

(** The error object an interceptor receives: [error.config] and
    [error.response]. *)
Record AxiosError := mkAxiosError {
  config : RequestConfig;
  response : option (Z * Body)
}.

Inductive Event :=
| Sent (c : RequestConfig)
| RefreshPosted (refreshToken_ : option string)
| SignedOut.

(** The client and the network it talks to: the replies still to come, in
    order, and the log of what the client did. *)
Record World := mkWorld {
  store : AuthState;
  replies : list Reply;
  refreshReplies : list RefreshReply;
  events : list Event
}.

Inductive Promise :=
| Resolved (status : Z) (data : Body)
| Rejected (error : AxiosError)
| Pending.                     (* the model ran out of fuel *)

(** Request interceptor. *)
Definition onRequest (s : AuthState) (c : RequestConfig) : RequestConfig :=
  let token := accessToken s in
  if truthy token
  then mkRequestConfig (url c) (Some ("Bearer " ++ show token)) (_retry c)
  else c.

(** Response interceptor, success side. *)
Definition onFulfilled (b : Body) : Body :=
  match b with
  | Envelope d => Plain d
  | Plain d => Plain d
  end.

(** The transport: the next scripted reply; no reply left is a network
    failure. *)
Definition send (c : RequestConfig) (w : World) : Reply * World :=
  match replies w with
  | r :: rest => (r, mkWorld (store w) rest (refreshReplies w) (events w ++ [Sent c]))
  | [] => (NoResponse, mkWorld (store w) [] (refreshReplies w) (events w ++ [Sent c]))
  end.

Definition postRefresh (t : option string) (w : World) : RefreshReply * World :=
  match refreshReplies w with
  | r :: rest =>
      (r, mkWorld (store w) (replies w) rest (events w ++ [RefreshPosted t]))
  | [] =>
      (RefreshRejected,
       mkWorld (store w) (replies w) [] (events w ++ [RefreshPosted t]))
  end.

Definition with_store (s : AuthState) (w : World) : World :=
  mkWorld s (replies w) (refreshReplies w) (events w).

(** The [catch (refreshError)] block. *)
Definition onRefreshError (w : World) : World :=
  mkWorld (logout (store w)) (replies w) (refreshReplies w) (events w ++ [SignedOut]).

Definition status_is (e : AxiosError) (code : Z) : bool :=
  match response e with
  | Some (status, _) => status =? code
  | None => false
  end.

(** Response interceptor, error side.  [replay] is [api] itself.  The
    error keeps pointing at the config object that was marked. *)
Definition onRejected (replay : RequestConfig -> World -> Promise * World)
           (error : AxiosError) (w : World) : Promise * World :=
  let originalRequest := config error in
  if status_is error 401 && negb (_retry originalRequest) then
    let originalRequest :=
      mkRequestConfig (url originalRequest) (Authorization originalRequest) true in
    let error := mkAxiosError originalRequest (response error) in
    let refreshToken_ := refreshToken (store w) in
    if negb (truthy refreshToken_)
    then (Rejected error, onRefreshError w)
    else
      match postRefresh refreshToken_ w with
      | (RefreshRejected, w1) => (Rejected error, onRefreshError w1)
      | (RefreshResolved accessToken_ newRefreshToken, w1) =>
          let s2 := setAccessToken accessToken_ (store w1) in
          match login (user s2) accessToken_ newRefreshToken s2 with
          | None => (Rejected error, onRefreshError (with_store s2 w1))
          | Some s3 =>
              let originalRequest :=
                mkRequestConfig (url originalRequest)
                                (Some ("Bearer " ++ show accessToken_)) true in
              replay originalRequest (with_store s3 w1)
          end
      end
  else (Rejected error, w).

(** One pass of a request through the instance: request interceptor,
    transport, response interceptor.  axios resolves a 2xx status and hands
    anything else to the error side, [rejected]. *)
Definition attempt (rejected : AxiosError -> World -> Promise * World)
           (c : RequestConfig) (w : World) : Promise * World :=
  let c' := onRequest (store w) c in
  match send c' w with
  | (Http status body, w1) =>
      if (200 <=? status) && (status <? 300)
      then (Resolved status (onFulfilled body), w1)
      else rejected (mkAxiosError c' (Some (status, body))) w1
  | (NoResponse, w1) => rejected (mkAxiosError c' None) w1
  end.

(** [api(config)]; the replay inside [onRejected] is [api] again. *)
Fixpoint api (fuel : nat) (c : RequestConfig) (w : World) : Promise * World :=
  match fuel with
  | O => (Pending, w)
  | S fuel' => attempt (onRejected (api fuel')) c w
  end.

(** [return Promise.reject(error)] *)
Definition reject (error : AxiosError) (w : World) : Promise * World :=
  (Rejected error, w).

Definition count_refresh (l : list Event) : nat :=
  length (filter (fun e => match e with RefreshPosted _ => true | _ => false end) l).
Definition count_sent (l : list Event) : nat :=
  length (filter (fun e => match e with Sent _ => true | _ => false end) l).

(** *** app/index.tsx *)

Inductive Route := TabsHome | OnboardingRoute | AuthLogin.

(** The body of the [setTimeout] callback. *)
Definition redirect (s : AuthState) : Route :=
  match isAuthenticated s, user s with
  | true, Some u => if hasCompletedOnboarding u then TabsHome else OnboardingRoute
  | _, _ => AuthLogin
  end.

(** The second [useEffect]: the timer it arms, if any. *)
Definition navigationEffect (isLayoutReady : bool) (s : AuthState) : option Route :=
  if negb isLayoutReady || negb (_hasHydrated s)
  then None
  else Some (redirect s).

(** The mounted [Index] screen: its [isLayoutReady] state, the armed timer
    and the [router.replace] calls made so far. *)
Record Screen := mkScreen {
  isLayoutReady : bool;
  timer : option Route;
  replaced : list Route
}.

Definition mounted : Screen := mkScreen false None [].

(** [rootNavigationState?.key != null] *)
Definition is_some_key (key : option string) : bool :=
  match key with Some _ => true | None => false end.

Inductive Tick :=
| Render (s : AuthState) (rootNavigationKey : option string)
| TimerFires.

(** A render commits both effects: the cleanup of the previous navigation
    effect clears its timer and the effect runs again on the values of this
    render; [setIsLayoutReady(true)] shows in the next render.  Re-arming a
    timer for unchanged dependencies is the same as keeping it. *)
Definition step (sc : Screen) (t : Tick) : Screen :=
  match t with
  | Render s key =>
      mkScreen (if is_some_key key then true else isLayoutReady sc)
               (navigationEffect (isLayoutReady sc) s)
               (replaced sc)
  | TimerFires =>
      match timer sc with
      | Some r => mkScreen (isLayoutReady sc) None (replaced sc ++ [r])
      | None => sc
      end
  end.

Definition run (ticks : list Tick) (sc : Screen) : Screen :=
  fold_left step ticks sc.

Definition unhydrated (t : Tick) : Prop :=
  match t with
  | Render s _ => _hasHydrated s = false
  | TimerFires => True
  end.

End Client.

(** ** Vocabulary of the properties *)

Module Spec.
Import Backend Prisma.

(** The credential [findUnique({ where: { token } })] finds. *)
Definition credential (t : string) (w : World) : option RefreshToken.t :=
  find (where_token t) (refresh_tokens (db w)).

(** Not found, already revoked, or past its expiry. *)
Definition rejected (now_ : Z) (c : option RefreshToken.t) : Prop :=
  match c with
  | None => True
  | Some r => RefreshToken.revokedAt r <> None \/ RefreshToken.expiresAt r < now_
  end.

(** A credential that has been redeemed or logged out. *)
Definition spent (t : string) (w : World) : Prop :=
  exists r, credential t w = Some r /\ RefreshToken.revokedAt r <> None.

(** The rows of [users] with a given email. *)
Definition rows_with_email (e : string) (w : World) : list User.t :=
  filter (where_email e) (users (db w)).

(** The primary key and [email @unique] hold of table [users]. *)
Definition consistent (w : World) : Prop :=
  NoDup (map User.id (users (db w))) /\ NoDup (map User.email (users (db w))).

(** A step that cannot break the constraints of [users]. *)
Definition keeps_consistent (w w' : World) : Prop := consistent w -> consistent w'.

(** The rows of [users] other than the one with id [i]. *)
Definition others (i : string) (us : list User.t) : list User.t :=
  filter (fun x => negb (where_id i x)) us.

(** After a Google sign-in with email [e] and subject [s] for user [i]:
    [u] is the one row with that email, it carries the subject, and it
    satisfies the unique constraints against the other rows. *)
Definition bound (e s i : string) (u : User.t) (w : World) : Prop :=
  filter (where_email e) (users (db w)) = [u]
  /\ User.id u = i
  /\ User.email u = e
  /\ find (where_id i) (users (db w)) = Some u
  /\ User.providerId u = Some s
  /\ existsb (where_email e) (others i (users (db w))) = false
  /\ existsb (same_identity u) (others i (users (db w))) = false.

(** The identifiers generated for a call are not in use yet. *)
Definition fresh_uuids (env : Env) (w : World) : bool :=
  negb (existsb (where_row_id (uuid_row env)) (refresh_tokens (db w)))
  && negb (existsb (where_token (uuid_token env)) (refresh_tokens (db w))).

(** Credentials are never deleted and never un-revoked. *)
Definition evolves (w w' : World) : Prop :=
  forall t r, credential t w = Some r ->
    exists r', credential t w' = Some r'
               /\ (RefreshToken.revokedAt r <> None -> RefreshToken.revokedAt r' <> None).

(** A user row that has been soft-deleted. *)
Definition soft_deleted (u : User.t) : Prop := User.deletedAt u <> None.

(** Two stores that differ at most in the revocation timestamps. *)
Definition same_but_revokedAt (r r' : RefreshToken.t) : Prop :=
  RefreshToken.id r' = RefreshToken.id r
  /\ RefreshToken.token r' = RefreshToken.token r
  /\ RefreshToken.userId r' = RefreshToken.userId r
  /\ RefreshToken.expiresAt r' = RefreshToken.expiresAt r
  /\ RefreshToken.createdAt r' = RefreshToken.createdAt r
  /\ (RefreshToken.revokedAt r' = None <-> RefreshToken.revokedAt r = None).

End Spec.

(** ** A small deployment to run the services on *)

Module Demo.
Import Backend Service.

Definition cfg : Config :=
  mkConfig (Some "secret") (Some "15m") (Some "7d")
           (Some "web-client-id") (Some "ios-client-id").

Definition ann : GoogleUserInfo :=
  mkGoogleUserInfo "web-client-id" "g-123" (Some "a@b.com") (Some "Ann") None None.
(** Claims of a token that was issued to some other application. *)
Definition stranger : GoogleUserInfo :=
  mkGoogleUserInfo "another-app" "g-999" (Some "eve@x.org") None None None.
Definition anonymous : GoogleUserInfo :=
  mkGoogleUserInfo "web-client-id" "g-555" None None None None.

Definition google (idToken : string) : option GoogleUserInfo :=
  if String.eqb idToken "id-ann" then Some ann
  else if String.eqb idToken "id-stranger" then Some stranger
  else if String.eqb idToken "id-anonymous" then Some anonymous
  else None.

Definition env_at (clock : Z) (uuid_user_ uuid_row_ uuid_token_ : string) : Env :=
  mkEnv clock uuid_user_ uuid_row_ uuid_token_ google
        (fun p => "hash:" ++ p) (fun p h => String.eqb ("hash:" ++ p) h).

Definition e1 : Env := env_at 1000 "u1" "k1" "R1".
Definition e2 : Env := env_at 2000 "u2" "k2" "R2".
Definition e3 : Env := env_at 3000 "u3" "k3" "R3".
Definition e4 : Env := env_at 4000 "u4" "k4" "R4".

(** Ann has signed in with Google once. *)
Definition signed_in : World := handle cfg e1 (PostGoogle "id-ann") empty_world.

(** Ann's account has then been soft-deleted. *)
Definition deleted : World := handle cfg e2 (DeleteUser "u1") signed_in.

End Demo.

Module ClientDemo.
Import Client.

Definition ann : User := mkUser "u1" "a@b.com" true.

(** Scenario 4 of the specification: an expired access token and a valid
    refresh token in the session. *)
Definition session : AuthState :=
  mkAuthState (Some ann) (Some "expired") (Some "validR") true false true.

Definition getProfile : RequestConfig := mkRequestConfig "/auth/me" None false.

(** The backend answers 401 to the request and to its replay, and accepts
    the refresh in between. *)
Definition twice_401 : World :=
  mkWorld session
          [Http 401 (Plain "Unauthorized"); Http 401 (Plain "Unauthorized");
           Http 200 (Plain "profile")]
          [RefreshResolved (Some "A2") (Some "R2"); RefreshResolved (Some "A3") (Some "R3")]
          [].

(** The backend answers 401 once and accepts the refresh. *)
Definition once_401 : World :=
  mkWorld session
          [Http 401 (Plain "Unauthorized"); Http 200 (Envelope "profile")]
          [RefreshResolved (Some "A2") (Some "R2")]
          [].

(** What was persisted by an earlier, signed-in run of the app. *)
Definition persisted : Persisted :=
  mkPersisted (Some ann) (Some "A1") (Some "R1") true.

(** The entry screen before the store has hydrated: renders and timer
    ticks, with the navigation tree becoming ready on the way. *)
Definition before_hydration : list Tick :=
  [Render initialState None; TimerFires;
   Render initialState (Some "root"); TimerFires;
   Render initialState (Some "root"); TimerFires].

End ClientDemo.

(** ** More of the backend: constraints, pagination, user listing *)

Module Keys.
Import Backend Prisma Spec.

(** [@@unique([provider, providerId])] holds of the table: two rows with
    the same identity are the same row. *)
Definition identity_unique (w : World) : Prop :=
  forall a b, In a (users (db w)) -> In b (users (db w)) ->
              same_identity a b = true -> User.id a = User.id b.

(** The relation of [refresh_tokens] to [users] holds: every credential
    has an owner. *)
Definition references_kept (w : World) : Prop :=
  forall r, In r (refresh_tokens (db w)) ->
            existsb (where_id (RefreshToken.userId r)) (users (db w)) = true.

(** All the constraints the schema puts on the two tables. *)
Definition well_keyed (w : World) : Prop :=
  consistent w /\ identity_unique w /\ references_kept w.

Definition keeps_keyed (w w' : World) : Prop := well_keyed w -> well_keyed w'.

(** The user [i] exists and every row with that id is soft-deleted. *)
Definition gone (i : string) (w : World) : Prop :=
  existsb (where_id i) (users (db w)) = true
  /\ forall u, In u (users (db w)) -> where_id i u = true -> soft_deleted u.

Definition stays_gone (i : string) (w w' : World) : Prop := gone i w -> gone i w'.

(** A credential that [refreshTokens] accepts at time [now_]. *)
Definition valid_at (now_ : Z) (r : RefreshToken.t) : Prop :=
  RefreshToken.revokedAt r = None /\ now_ <= RefreshToken.expiresAt r.

End Keys.

Module Pagination.
Import Backend Prisma.

(** A JavaScript number that may fail to be finite. *)
Inductive JsNumber :=
| Finite (z : Z)
| PlusInfinity
| NotANumber.

(** [Math.ceil(total / limit)] for a count [total >= 0] and an integer
    [limit]; the quotient of two integers below 2^53 whose ceiling is
    taken is exact enough in doubles for the ceiling to be the exact one. *)
Definition ceil_quotient (total limit : Z) : JsNumber :=
  if limit =? 0
  then (if total =? 0 then NotANumber else PlusInfinity)
  else Finite (if total mod limit =? 0 then total / limit else total / limit + 1).

(** [page < totalPages] *)
Definition less_than (page : Z) (n : JsNumber) : bool :=
  match n with
  | Finite z => page <? z
  | PlusInfinity => true
  | NotANumber => false
  end.

Record Meta := mkMeta {
  total : Z;
  page : Z;
  limit : Z;
  totalPages : JsNumber;
  hasNextPage : bool;
  hasPrevPage : bool
}.

Record PaginatedResult (T : Type) := mkPaginatedResult {
  data : list T;
  meta : Meta
}.
Arguments mkPaginatedResult {T} data meta.
Arguments data {T} p.
Arguments meta {T} p.

(** [createPaginatedResult] (common/dto/pagination.dto.ts) *)
Definition createPaginatedResult {T} (data_ : list T) (total_ page_ limit_ : Z)
  : PaginatedResult T :=
  let totalPages_ := ceil_quotient total_ limit_ in
  mkPaginatedResult data_
    (mkMeta total_ page_ limit_ totalPages_ (less_than page_ totalPages_) (1 <? page_)).

(** The columns [UsersService.findAll] selects. *)
Record Listed := mkListed {
  l_id : string;
  l_email : string;
  l_firstName : option string;
  l_lastName : option string;
  l_role : Role;
  l_createdAt : Z;
  l_updatedAt : Z
}.

Definition select_listed (u : User.t) : Listed :=
  mkListed (User.id u) (User.email u) (User.firstName u) (User.lastName u)
           (User.role u) (User.createdAt u) (User.updatedAt u).

(** [UsersService.findAll] for a validated [PaginationDto] ([page] and
    [limit] naturals).  [orderBy] stands for the ordering the store applies
    for the requested [sortBy]/[sortOrder]; the two queries of the
    [Promise.all] read the same store. *)
Definition findAll (orderBy : list User.t -> list User.t) (page_ limit_ : nat)
  : M (PaginatedResult Listed) :=
  let skip := ((page_ - 1) * limit_)%nat in
  d <- get_db ;;
  let live := filter deletedAt_null (users d) in
  let rows := firstn limit_ (skipn skip (orderBy live)) in
  ret (createPaginatedResult (map select_listed rows)
                             (Z.of_nat (length live)) (Z.of_nat page_) (Z.of_nat limit_)).

(** [UsersService.findByEmail] *)
Definition findByEmail (email_ : string) : M (option User.t) :=
  user_findUnique (fun u => where_email email_ u && deletedAt_null u).

End Pagination.

(** ** More of the client: store actions, layouts, hooks, language *)

Module Screens.
Import Client.

(** [partialize] of the persist middleware (auth.store.ts). *)
Definition partialize (s : AuthState) : Persisted :=
  mkPersisted (user s) (accessToken s) (refreshToken s) (isAuthenticated s).

(** [setUser(user)] *)
Definition setUser (u : option User) (s : AuthState) : AuthState :=
  mkAuthState u (accessToken s) (refreshToken s) (isAuthenticated s) (isLoading s)
              (_hasHydrated s).

(** A [Partial<User>]. *)
Record UserPatch := mkUserPatch {
  patch_id : option string;
  patch_email : option string;
  patch_hasCompletedOnboarding : option bool
}.

Definition or_else {A} (o : option A) (d : A) : A :=
  match o with Some a => a | None => d end.

(** [updateUser(userData)]: [{ ...currentUser, ...userData }] when there is
    a current user, nothing otherwise. *)
Definition updateUser (userData : UserPatch) (s : AuthState) : AuthState :=
  match user s with
  | Some currentUser =>
      setUser (Some (mkUser (or_else (patch_id userData) (id currentUser))
                            (or_else (patch_email userData) (email currentUser))
                            (or_else (patch_hasCompletedOnboarding userData)
                                     (hasCompletedOnboarding currentUser))))
              s
  | None => s
  end.

(** [user && !user.hasCompletedOnboarding] *)
Definition onboarding_pending (s : AuthState) : bool :=
  match user s with
  | Some u => negb (hasCompletedOnboarding u)
  | None => false
  end.

(** [user?.hasCompletedOnboarding] *)
Definition onboarding_completed (s : AuthState) : bool :=
  match user s with
  | Some u => hasCompletedOnboarding u
  | None => false
  end.

(** The effect of [TabsLayout] ((tabs)/_layout.tsx): the [router.replace]
    it makes, if any. *)
Definition tabsEffect (s : AuthState) : option Route :=
  if negb (_hasHydrated s) then None
  else if negb (isAuthenticated s) then Some AuthLogin
  else if onboarding_pending s then Some OnboardingRoute
  else None.

(** Whether [TabsLayout] renders the tabs rather than [null]. *)
Definition tabsRenders (s : AuthState) : bool :=
  if negb (_hasHydrated s) || negb (isAuthenticated s) then false
  else if onboarding_pending s then false
  else true.

(** The effect of [OnboardingLayout] ((onboarding)/_layout.tsx). *)
Definition onboardingEffect (s : AuthState) : option Route :=
  if negb (_hasHydrated s) then None
  else if negb (isAuthenticated s) then Some AuthLogin
  else if onboarding_completed s then Some TabsHome
  else None.

(** Whether [OnboardingLayout] renders its stack rather than [null]. *)
Definition onboardingRenders (s : AuthState) : bool :=
  if negb (_hasHydrated s) then false
  else if negb (isAuthenticated s) || onboarding_completed s then false
  else true.

(** [onSuccess] of [useLoginWithGoogle], [useLogin] and [useRegister]: the
    store action and the navigation that follows. *)
Definition onLoginSuccess (u : User) (access refresh : option string) (s : AuthState)
  : option AuthState * Route :=
  (login (Some u) access refresh s,
   if hasCompletedOnboarding u then TabsHome else OnboardingRoute).

(** [onSuccess] of [useCompleteOnboarding]. *)
Definition onOnboardingSuccess (s : AuthState) : AuthState * Route :=
  (updateUser (mkUserPatch None None (Some true)) s, TabsHome).

(** [redirect] of [useProtectedRoute(redirectTo)]; [redirectTo] is the
    login route or the onboarding route. *)
Definition protectedRedirect (redirectTo : Route) (s : AuthState) : option Route :=
  if negb (isAuthenticated s) then Some redirectTo
  else if onboarding_pending s
          && negb match redirectTo with OnboardingRoute => true | _ => false end
  then Some OnboardingRoute
  else None.

(** What the interceptor can recover from: a refresh token in the store, a
    refresh call that resolves, and a user to sign in again. *)
Definition recoverable (w : World) : bool :=
  truthy (refreshToken (store w))
  && match refreshReplies w with
     | RefreshResolved _ _ :: _ =>
         match user (store w) with Some _ => true | None => false end
     | _ => false
     end.

(** [error.response] for a reply. *)
Definition response_of (r : Reply) : option (Z * Body) :=
  match r with
  | Http status body => Some (status, body)
  | NoResponse => None
  end.

(** A failure the interceptor does not act on: no response, or a status
    that is neither 2xx nor 401. *)
Definition not_a_401 (r : Reply) : bool :=
  match r with
  | Http status _ => negb ((200 <=? status) && (status <? 300)) && negb (status =? 401)
  | NoResponse => true
  end.

End Screens.

Module I18n.



End I18n.

Module DemoMore.
Import Backend Service.



End DemoMore.

(** * Properties *)

(** ** Expiry strings *)

Section ExpiryFacts.
Import Expiry.

Example parse_15m : parseExpiryToSeconds "15m" = 900.
Proof. reflexivity. Qed.
Example parse_7d : parseExpiryToSeconds "7d" = 604800.
Proof. reflexivity. Qed.
Example parse_2h : parseExpiryToSeconds "2h" = 7200.
Proof. reflexivity. Qed.
Example parse_45s : parseExpiryToSeconds "45s" = 45.
Proof. reflexivity. Qed.
Example parse_1w : parseExpiryToSeconds "1w" = 900.
Proof. reflexivity. Qed.
Example parse_15min : parseExpiryToSeconds "15min" = 900.
Proof. reflexivity. Qed.
Example parse_900 : parseExpiryToSeconds "900" = 900.
Proof. reflexivity. Qed.

Lemma span_digits_split s ds rest :
  span_digits s = (ds, rest) -> s = ds ++ rest /\ all_digits ds.
Proof.
  revert ds rest. induction s as [|c r IH]; simpl; intros ds rest H.
  - inversion H; subst. simpl. auto.
  - destruct (is_digit c) eqn:Hc.
    + destruct (span_digits r) as [ds' rest'] eqn:Hr.
      inversion H; subst. destruct (IH _ _ eq_refl) as [-> Hall].
      simpl. auto.
    + inversion H; subst. simpl. auto.
Qed.

Lemma is_unit_In u : is_unit u = true -> In u ["d"; "h"; "m"; "s"]%char.
Proof.
  destruct u as [[] [] [] [] [] [] [] []]; simpl; intro H;
    try discriminate H; auto.
Qed.

Lemma In_is_unit u : In u ["d"; "h"; "m"; "s"]%char -> is_unit u = true.
Proof.
  simpl. intros [<- | [<- | [<- | [<- | []]]]]; reflexivity.
Qed.

Lemma unit_not_digit u : is_unit u = true -> is_digit u = false.
Proof.
  intro H. apply is_unit_In in H. simpl in H.
  destruct H as [<- | [<- | [<- | [<- | []]]]]; reflexivity.
Qed.

Lemma expiry_match_well_formed s ds u :
  expiry_match s = Some (ds, u) -> well_formed s.
Proof.
  unfold expiry_match. destruct (span_digits s) as [d rest] eqn:Hs.
  destruct (span_digits_split _ _ _ Hs) as [-> Hall].
  destruct d as [|c d']; [discriminate|].
  destruct rest as [|u' [|x y]]; try discriminate.
  destruct (is_unit u') eqn:Hu; [|discriminate].
  intros _. exists (String c d'), u'. repeat split; try apply Hall.
  - discriminate.
  - now apply is_unit_In.
Qed.

Lemma span_digits_all ds u :
  all_digits ds -> is_digit u = false ->
  span_digits (ds ++ String u "") = (ds, String u "").
Proof.
  intros Hall Hu. induction ds as [|c r IH]; simpl.
  - now rewrite Hu.
  - destruct Hall as [Hc Hr]. rewrite Hc, (IH Hr). reflexivity.
Qed.

(** The scanner accepts exactly the strings the regular expression
    denotes. *)
Lemma well_formed_expiry_match s :
  well_formed s -> exists ds u, expiry_match s = Some (ds, u).
Proof.
  intros (ds & u & -> & Hne & Hall & Hu).
  apply In_is_unit in Hu. unfold expiry_match.
  rewrite (span_digits_all _ _ Hall (unit_not_digit _ Hu)).
  destruct ds as [|c r]; [congruence|]. rewrite Hu. eauto.
Qed.

Lemma not_well_formed_no_match s : ~ well_formed s -> expiry_match s = None.
Proof.
  intro H. destruct (expiry_match s) as [[ds u]|] eqn:E; [|reflexivity].
  exfalso. eauto using expiry_match_well_formed.
Qed.

Lemma or_default_nonempty s d : s <> "" -> or_default (Some s) d = s.
Proof. destruct s; [congruence | reflexivity]. Qed.

End ExpiryFacts.

(** ** The service monad *)

Section MonadFacts.
Import Backend.

(** A relation between the world before and after that every step of a
    handler respects is respected by the handler. *)
Variable R : World -> World -> Prop.
Hypothesis R_refl : forall w, R w w.
Hypothesis R_trans : forall a b c, R a b -> R b c -> R a c.

Lemma respects_ret A (a : A) : respects R (ret a).
Proof. intro w. apply R_refl. Qed.

Lemma respects_throw A e : respects R (@throw A e).
Proof. intro w. apply R_refl. Qed.

Lemma respects_get_db : respects R get_db.
Proof. intro w. apply R_refl. Qed.

Lemma respects_bind A B (m : M A) (k : A -> M B) :
  respects R m -> (forall a, respects R (k a)) -> respects R (bind m k).
Proof.
  intros Hm Hk w. unfold bind. specialize (Hm w).
  destruct (m w) as [[a|e] w1]; simpl in *; [|exact Hm].
  eapply R_trans; [exact Hm | apply Hk].
Qed.

Lemma respects_try_catch A (m : M A) h :
  respects R m -> (forall e, respects R (h e)) -> respects R (try_catch m h).
Proof.
  intros Hm Hh w. unfold try_catch. specialize (Hm w).
  destruct (m w) as [[a|e] w1]; simpl in *; [exact Hm|].
  eapply R_trans; [exact Hm | apply Hh].
Qed.

End MonadFacts.

(** ** Credentials are only ever added or revoked *)

Section CredentialFacts.
Import Backend Prisma Service Spec.

Lemma evolves_refl w : evolves w w.
Proof. intros t r H. eauto. Qed.

Lemma evolves_trans a b c : evolves a b -> evolves b c -> evolves a c.
Proof.
  intros Hab Hbc t r H. destruct (Hab _ _ H) as (r1 & H1 & K1).
  destruct (Hbc _ _ H1) as (r2 & H2 & K2). eauto.
Qed.

Lemma same_credentials_evolves w w' :
  refresh_tokens (db w') = refresh_tokens (db w) -> evolves w w'.
Proof. intros E t r H. unfold credential in *. rewrite E. eauto. Qed.

Lemma find_map_token (f : RefreshToken.t -> RefreshToken.t) t l :
  (forall x, RefreshToken.token (f x) = RefreshToken.token x) ->
  find (where_token t) (map f l) = option_map f (find (where_token t) l).
Proof.
  intro Hf. induction l as [|x l IH]; simpl; [reflexivity|].
  unfold where_token at 1 3. rewrite Hf.
  destruct (String.eqb (RefreshToken.token x) t); [reflexivity | exact IH].
Qed.

Lemma find_app_fresh {A} (p : A -> bool) l x :
  existsb p l = false -> find p (l ++ [x]) = if p x then Some x else None.
Proof.
  induction l as [|y l IH]; simpl; [reflexivity|].
  destruct (p y); simpl; [discriminate | exact IH].
Qed.

Lemma find_app_found {A} (p : A -> bool) l l' y :
  find p l = Some y -> find p (l ++ l') = Some y.
Proof.
  induction l as [|x l IH]; simpl; [discriminate|].
  destruct (p x); [auto | exact IH].
Qed.

Lemma find_existsb {A} (p : A -> bool) l y : find p l = Some y -> existsb p l = true.
Proof.
  intro H. apply find_some in H. apply existsb_exists. exists y. exact H.
Qed.

Lemma revoking_evolves (sel : RefreshToken.t -> bool) at_ w w' :
  refresh_tokens (db w')
  = map (fun r => if sel r then revoke at_ r else r) (refresh_tokens (db w)) ->
  evolves w w'.
Proof.
  intros E t r H. unfold credential in *. rewrite E, find_map_token, H.
  - simpl. eexists; split; [reflexivity|].
    destruct (sel r); simpl; [discriminate | auto].
  - intro x. destruct (sel x); reflexivity.
Qed.

Lemma evolves_user_findUnique p : respects evolves (user_findUnique p).
Proof. intro w. apply evolves_refl. Qed.

Lemma evolves_user_create u : respects evolves (user_create u).
Proof.
  intro w. apply same_credentials_evolves. unfold user_create, bind, get_db.
  simpl. repeat (match goal with |- context [if ?b then _ else _] => destruct b end;
                 simpl; try reflexivity).
Qed.

Lemma evolves_user_update i f : respects evolves (user_update i f).
Proof.
  intro w. apply same_credentials_evolves. unfold user_update, bind, get_db.
  simpl. destruct (find (where_id i) (users (db w))); simpl; [|reflexivity].
  repeat (match goal with |- context [if ?b then _ else _] => destruct b end;
          simpl; try reflexivity).
Qed.

Lemma evolves_refreshToken_findUnique t : respects evolves (refreshToken_findUnique t).
Proof.
  intro w. unfold refreshToken_findUnique, bind, get_db. simpl.
  destruct (find (where_token t) (refresh_tokens (db w))); apply evolves_refl.
Qed.

Lemma evolves_update_revokedAt i at_ : respects evolves (refreshToken_update_revokedAt i at_).
Proof.
  intro w. unfold refreshToken_update_revokedAt, bind, get_db. simpl.
  destruct (existsb (where_row_id i) (refresh_tokens (db w))); simpl.
  - eapply revoking_evolves. reflexivity.
  - apply evolves_refl.
Qed.

Lemma evolves_updateMany t at_ : respects evolves (refreshToken_updateMany_revokedAt t at_).
Proof. intro w. eapply revoking_evolves. reflexivity. Qed.

Lemma evolves_refreshToken_create i t uid ex cr :
  respects evolves (refreshToken_create i t uid ex cr).
Proof.
  intro w. unfold refreshToken_create, bind, get_db. simpl.
  destruct (existsb (where_row_id i) (refresh_tokens (db w))); simpl;
    [apply evolves_refl|].
  destruct (existsb (where_token t) (refresh_tokens (db w))) eqn:Ht; simpl;
    [apply evolves_refl|].
  destruct (existsb (where_id uid) (users (db w))); simpl; [|apply evolves_refl].
  intros t' r H. unfold credential in *. simpl.
  rewrite (find_app_found _ _ _ _ H). eauto.
Qed.

Lemma evolves_log l msg : respects evolves (log_at l msg).
Proof. intro w. apply same_credentials_evolves. reflexivity. Qed.

End CredentialFacts.

Section ServiceEvolves.
Import Backend Prisma Service Spec.

Ltac evolve_using known :=
  repeat first
    [ known
    | apply respects_ret; exact evolves_refl
    | apply respects_throw; exact evolves_refl
    | apply evolves_log
    | apply evolves_user_findUnique
    | apply evolves_user_create
    | apply evolves_user_update
    | apply evolves_refreshToken_findUnique
    | apply evolves_update_revokedAt
    | apply evolves_updateMany
    | apply evolves_refreshToken_create
    | apply respects_bind; [exact evolves_trans | | intro]
    | apply respects_try_catch; [exact evolves_trans | | intro]
    | match goal with
      | |- respects _ (match ?x with _ => _ end) => destruct x
      | |- respects _ (if ?b then _ else _) => destruct b
      | |- respects _ (let (_, _) := ?x in _) => destruct x
      end ].
Ltac evolve := evolve_using fail.

Variable cfg : Config.
Variable env : Env.

Lemma evolves_generateTokens uid e r : respects evolves (generateTokens cfg env uid e r).
Proof. unfold generateTokens, jwt_sign. evolve. Qed.

Lemma evolves_verifyGoogleToken t : respects evolves (verifyGoogleToken cfg env t).
Proof. unfold verifyGoogleToken, axios_get_tokeninfo. evolve. Qed.

Lemma evolves_loginWithGoogle t : respects evolves (loginWithGoogle cfg env t).
Proof.
  unfold loginWithGoogle, user_upsert.
  apply respects_bind; [exact evolves_trans | apply evolves_verifyGoogleToken | intro g].
  destruct (g_email g) as [[|c r]|]; evolve_using ltac:(apply evolves_generateTokens).
Qed.

Lemma evolves_register e p f l : respects evolves (register cfg env e p f l).
Proof. unfold register. evolve_using ltac:(apply evolves_generateTokens). Qed.

Lemma evolves_login e p : respects evolves (login cfg env e p).
Proof. unfold login. evolve_using ltac:(apply evolves_generateTokens). Qed.

Lemma evolves_getMe i : respects evolves (getMe i).
Proof. unfold getMe. evolve. Qed.

Lemma evolves_completeOnboarding i : respects evolves (completeOnboarding env i).
Proof. unfold completeOnboarding. evolve. Qed.

Lemma evolves_refreshTokens t : respects evolves (refreshTokens cfg env t).
Proof. unfold refreshTokens. evolve_using ltac:(apply evolves_generateTokens). Qed.

Lemma evolves_logout t : respects evolves (logout env t).
Proof. unfold logout. evolve. Qed.

Lemma evolves_remove i : respects evolves (remove env i).
Proof. unfold remove, findOne. evolve. Qed.

Lemma evolves_handle q w : evolves w (handle cfg env q w).
Proof.
  destruct q; simpl.
  - apply evolves_loginWithGoogle.
  - apply evolves_register.
  - apply evolves_login.
  - apply evolves_getMe.
  - apply evolves_completeOnboarding.
  - apply evolves_refreshTokens.
  - apply evolves_logout.
  - apply evolves_remove.
Qed.

End ServiceEvolves.

Section RefreshFacts.
Import Backend Prisma Service Spec.

Lemma evolves_run cfg history w : evolves w (run cfg history w).
Proof.
  revert w. induction history as [|[env q] rest IH]; intro w; simpl.
  - apply evolves_refl.
  - eapply evolves_trans; [apply evolves_handle | apply IH].
Qed.

Lemma spent_evolves t w w' : evolves w w' -> spent t w -> spent t w'.
Proof.
  intros E (r & H & K). destruct (E _ _ H) as (r' & H' & K'). exists r'. auto.
Qed.

(** A spent credential is refused, and the store is left as it was. *)
Lemma spent_refused cfg env t w :
  spent t w ->
  refreshTokens cfg env t w = (Throw (UnauthorizedException "Invalid refresh token"), w).
Proof.
  intros (r & H & K). unfold refreshTokens, refreshToken_findUnique, bind, get_db.
  unfold credential in H. simpl. rewrite H. simpl.
  destruct (RefreshToken.revokedAt r); [reflexivity | congruence].
Qed.

End RefreshFacts.

Section TokenFacts.
Import Backend Prisma Service Spec.

(** What [generateTokens] does, case by case. *)
Lemma generateTokens_cases cfg env uid e r w :
  generateTokens cfg env uid e r w =
  if truthy (jwt_secret cfg) then
    if existsb (where_row_id (uuid_row env)) (refresh_tokens (db w))
    then (Throw (PrismaUniqueConstraint "id"), w)
    else if existsb (where_token (uuid_token env)) (refresh_tokens (db w))
    then (Throw (PrismaUniqueConstraint "token"), w)
    else if negb (existsb (where_id uid) (users (db w)))
    then (Throw (PrismaForeignKey "user_id"), w)
    else (Return (mkTokens (mkAccessToken uid e r (now env) (accessExpiresIn cfg))
                           (uuid_token env)),
          mkWorld (mkDb (users (db w))
                        (refresh_tokens (db w)
                         ++ [RefreshToken.mk (uuid_row env) (uuid_token env) uid
                               (now env + 1000 * refreshSeconds cfg) (now env) None]))
                  (logger w))
  else (Throw (Error "secretOrPrivateKey must have a value"), w).
Proof.
  unfold generateTokens, jwt_sign, refreshToken_create, bind, get_db, put_db, ret, throw.
  destruct (truthy (jwt_secret cfg)); [|reflexivity]. cbn beta iota.
  cbn [db].
  destruct (existsb (where_row_id (uuid_row env)) (refresh_tokens (db w))); [reflexivity|].
  destruct (existsb (where_token (uuid_token env)) (refresh_tokens (db w))); [reflexivity|].
  destruct (existsb (where_id uid) (users (db w))); reflexivity.
Qed.

Lemma generateTokens_not_unauthorized cfg env uid e r w msg :
  fst (generateTokens cfg env uid e r w) <> Throw (UnauthorizedException msg).
Proof.
  rewrite generateTokens_cases.
  repeat (match goal with |- context [if ?b then _ else _] => destruct b end);
    simpl; discriminate.
Qed.

(** A successful [generateTokens]: the pair it returns and the row it adds. *)
Lemma generateTokens_returns cfg env uid e r w tk w' :
  generateTokens cfg env uid e r w = (Return tk, w') ->
  tk = mkTokens (mkAccessToken uid e r (now env) (accessExpiresIn cfg)) (uuid_token env)
  /\ existsb (where_token (uuid_token env)) (refresh_tokens (db w)) = false
  /\ users (db w') = users (db w)
  /\ refresh_tokens (db w')
     = (refresh_tokens (db w)
        ++ [RefreshToken.mk (uuid_row env) (uuid_token env) uid
              (now env + 1000 * refreshSeconds cfg) (now env) None])%list.
Proof.
  rewrite generateTokens_cases.
  destruct (truthy (jwt_secret cfg)); [|discriminate].
  destruct (existsb (where_row_id (uuid_row env)) (refresh_tokens (db w))); [discriminate|].
  destruct (existsb (where_token (uuid_token env)) (refresh_tokens (db w))); [discriminate|].
  destruct (existsb (where_id uid) (users (db w))); [|discriminate].
  simpl. intro H. inversion H; subst. simpl. auto.
Qed.

Lemma where_token_refl r : where_token (RefreshToken.token r) r = true.
Proof. apply String.eqb_refl. Qed.

Lemma where_row_id_refl r : where_row_id (RefreshToken.id r) r = true.
Proof. apply String.eqb_refl. Qed.

(** The first half of a redemption: the stored credential is revoked. *)
Lemma revoke_stored t at_ w stored :
  credential t w = Some stored ->
  exists w1,
    refreshToken_update_revokedAt (RefreshToken.id stored) at_ w = (Return tt, w1)
    /\ users (db w1) = users (db w)
    /\ credential t w1 = Some (revoke at_ stored).
Proof.
  intro H. unfold refreshToken_update_revokedAt, bind, get_db, put_db. simpl.
  assert (In stored (refresh_tokens (db w))) as Hin
      by (apply find_some in H; tauto).
  assert (existsb (where_row_id (RefreshToken.id stored)) (refresh_tokens (db w)) = true)
    as -> by (apply existsb_exists; exists stored; auto using where_row_id_refl).
  eexists; split; [reflexivity|]. split; [reflexivity|].
  unfold credential in *. simpl. rewrite find_map_token, H.
  - simpl. now rewrite where_row_id_refl.
  - intro x. destruct (where_row_id _ x); reflexivity.
Qed.

End TokenFacts.

(** ** Rotation of refresh credentials *)

Section Rotation.
Import Backend Prisma Service Spec.

(** C1 (rotation is single use).  When [refreshTokens r] succeeds it
    leaves [r] revoked and returns a new pair, with a refresh token other
    than [r], bound to the user of [r]; from then on, whatever requests the
    backend serves in between, [refreshTokens r] fails with the
    unauthorized error and leaves the store alone: [r] is never redeemed
    twice. *)
Theorem refresh_is_single_use cfg env r w tk w1 :
  refreshTokens cfg env r w = (Return tk, w1) ->
  (exists stored minted,
     credential r w = Some stored
     /\ spent r w1
     /\ refreshToken tk <> r
     /\ at_sub (accessToken tk) = RefreshToken.userId stored
     /\ credential (refreshToken tk) w1 = Some minted
     /\ RefreshToken.userId minted = RefreshToken.userId stored
     /\ RefreshToken.revokedAt minted = None)
  /\ forall history env',
       refreshTokens cfg env' r (run cfg history w1)
       = (Throw (UnauthorizedException "Invalid refresh token"), run cfg history w1).
Proof.
  intro H. unfold refreshTokens, refreshToken_findUnique in H.
  unfold bind at 1 2 in H. unfold get_db at 1 in H. cbn [db fst snd] in H.
  destruct (find (where_token r) (refresh_tokens (db w))) as [stored|] eqn:Hf;
    [|discriminate H].
  unfold ret at 1 in H.
  destruct (negb (is_null (RefreshToken.revokedAt stored))
            || (RefreshToken.expiresAt stored <? now env)); [discriminate H|].
  destruct (revoke_stored r (now env) w stored Hf) as (wa & Hup & Husers & Hcred).
  unfold bind in H. rewrite Hup in H.
  destruct (find (where_id (RefreshToken.userId stored)) (users (db w))) as [u|] eqn:Hu;
    [|discriminate H].
  assert (User.id u = RefreshToken.userId stored) as Hid
      by (apply find_some in Hu; destruct Hu as [_ Hu]; now apply String.eqb_eq in Hu).
  pose proof (evolves_generateTokens cfg env (User.id u) (User.email u) (User.role u) wa)
    as Hev.
  rewrite H in Hev. simpl in Hev.
  destruct (generateTokens_returns _ _ _ _ _ _ _ _ H) as (-> & Hfresh & _ & Hrows).
  assert (spent r w1) as Hspent.
  { apply (spent_evolves r wa w1 Hev). exists (revoke (now env) stored).
    split; [exact Hcred | discriminate]. }
  split.
  - exists stored.
    exists (RefreshToken.mk (uuid_row env) (uuid_token env) (User.id u)
                            (now env + 1000 * refreshSeconds cfg) (now env) None).
    split; [exact Hf|]. split; [exact Hspent|]. simpl. repeat split; auto.
    + intro E. apply find_existsb in Hcred. rewrite E in Hfresh. congruence.
    + unfold credential. rewrite Hrows, find_app_fresh by exact Hfresh.
      unfold where_token. cbn [RefreshToken.token]. now rewrite String.eqb_refl.
  - intros history env'. apply spent_refused.
    eapply spent_evolves; [apply evolves_run | exact Hspent].
Qed.

(** Scenario 2 of the specification: R1 is redeemed for (A2, R2); after a
    logout of R2 and another sign-in, R1 is still refused. *)
Lemma refresh_is_single_use_witness :
  refreshTokens Demo.cfg Demo.e2 "R1" Demo.signed_in
  = (Return (mkTokens (mkAccessToken "u1" "a@b.com" USER 2000 900) "R2"),
     handle Demo.cfg Demo.e2 (PostRefresh "R1") Demo.signed_in)
  /\ refreshTokens Demo.cfg Demo.e4 "R1"
       (run Demo.cfg [(Demo.e3, PostLogout "R2"); (Demo.e3, PostGoogle "id-ann")]
            (handle Demo.cfg Demo.e2 (PostRefresh "R1") Demo.signed_in))
     = (Throw (UnauthorizedException "Invalid refresh token"),
        run Demo.cfg [(Demo.e3, PostLogout "R2"); (Demo.e3, PostGoogle "id-ann")]
            (handle Demo.cfg Demo.e2 (PostRefresh "R1") Demo.signed_in)).
Proof.
  assert (refreshTokens Demo.cfg Demo.e2 "R1" Demo.signed_in
          = (Return (mkTokens (mkAccessToken "u1" "a@b.com" USER 2000 900) "R2"),
             handle Demo.cfg Demo.e2 (PostRefresh "R1") Demo.signed_in)) as H
      by (vm_compute; reflexivity).
  split; [exact H|].
  apply (proj2 (refresh_is_single_use _ _ _ _ _ _ H)).
Defined.

(** C2 (who is refused).  [refreshTokens t] fails with an unauthorized
    error exactly when no credential is stored for [t], or the stored one is
    revoked, or its expiry is earlier than the current time; in each of the
    three cases the caller gets the same exception and the store is
    untouched, so the causes cannot be told apart. *)
Theorem refresh_refuses_exactly_the_invalid cfg env t w :
  ((exists msg, fst (refreshTokens cfg env t w) = Throw (UnauthorizedException msg))
   <-> rejected (now env) (credential t w))
  /\ (rejected (now env) (credential t w) ->
      refreshTokens cfg env t w
      = (Throw (UnauthorizedException "Invalid refresh token"), w)).
Proof.
  assert (rejected (now env) (credential t w) ->
          refreshTokens cfg env t w
          = (Throw (UnauthorizedException "Invalid refresh token"), w)) as Hback.
  { unfold rejected, credential, refreshTokens, refreshToken_findUnique, bind, get_db.
    cbn [db fst snd].
    destruct (find (where_token t) (refresh_tokens (db w))) as [stored|]; [|reflexivity].
    cbn. intros [Hrev | Hexp].
    - destruct (RefreshToken.revokedAt stored); [reflexivity | congruence].
    - apply Z.ltb_lt in Hexp. rewrite Hexp, orb_true_r. reflexivity. }
  split; [split|exact Hback].
  - intros [msg H]. unfold rejected.
    destruct (credential t w) as [stored|] eqn:Hf; [|exact I].
    destruct (RefreshToken.revokedAt stored) as [z|] eqn:Hrev; [left; discriminate|].
    destruct (RefreshToken.expiresAt stored <? now env) eqn:Hexp;
      [right; now apply Z.ltb_lt|].
    exfalso. revert H.
    unfold refreshTokens, refreshToken_findUnique.
    unfold bind at 1 2. unfold get_db at 1. cbn [db fst snd].
    unfold credential in Hf. rewrite Hf. unfold ret at 1.
    rewrite Hrev, Hexp. cbn [is_null negb orb].
    destruct (revoke_stored t (now env) w stored Hf) as (wa & Hup & _ & _).
    unfold bind. rewrite Hup.
    destruct (find (where_id (RefreshToken.userId stored)) (users (db w))) as [u|].
    + apply generateTokens_not_unauthorized.
    + simpl. discriminate.
  - intro Hr. rewrite (Hback Hr). eexists. reflexivity.
Qed.

(** An unrevoked credential is refused one millisecond after its expiry,
    and still accepted at the instant of its expiry. *)
Example expired_credential_is_refused :
  fst (refreshTokens Demo.cfg (Demo.env_at 604801001 "u2" "k2" "R2") "R1" Demo.signed_in)
  = Throw (UnauthorizedException "Invalid refresh token")
  /\ fst (refreshTokens Demo.cfg (Demo.env_at 604801000 "u2" "k2" "R2") "R1"
                        Demo.signed_in)
     = Return (mkTokens (mkAccessToken "u1" "a@b.com" USER 604801000 900) "R2").
Proof. split; vm_compute; reflexivity. Qed.

End Rotation.

(** ** Logout *)

Section Logout.
Import Backend Prisma Service Spec.

Lemma logout_world env t w :
  logout env t w
  = (Return tt,
     mkWorld (mkDb (users (db w))
                   (map (fun r => if where_token t r then revoke (now env) r else r)
                        (refresh_tokens (db w))))
             (logger w)).
Proof. reflexivity. Qed.

Lemma revoke_nothing t at_ l :
  find (where_token t) l = None ->
  map (fun r => if where_token t r then revoke at_ r else r) l = l.
Proof.
  induction l as [|x l IH]; simpl; [reflexivity|].
  destruct (where_token t x); [discriminate|]. intro H. now rewrite IH.
Qed.

Lemma revoke_twice t at_ l :
  map (fun r => if where_token t r then revoke at_ r else r)
      (map (fun r => if where_token t r then revoke at_ r else r) l)
  = map (fun r => if where_token t r then revoke at_ r else r) l.
Proof.
  rewrite map_map. apply map_ext. intro r.
  destruct (where_token t r) eqn:E; [|now rewrite E].
  unfold where_token in *. simpl. now rewrite E.
Qed.

Lemma revoke_again_same_status t at1 at2 l :
  Forall2 same_but_revokedAt
    (map (fun r => if where_token t r then revoke at1 r else r) l)
    (map (fun r => if where_token t r then revoke at2 r else r)
         (map (fun r => if where_token t r then revoke at1 r else r) l)).
Proof.
  induction l as [|x l IH]; simpl; constructor; [|exact IH].
  unfold same_but_revokedAt.
  destruct (where_token t x) eqn:E.
  - unfold where_token in *. simpl. rewrite E. simpl.
    repeat split; intro H; discriminate H.
  - rewrite E. repeat split; auto.
Qed.

(** C7 as it holds of the code.  [logout t] returns normally for every
    token and every store, and so does a second [logout t]; after the first
    call every credential with token [t] is revoked; an unknown token
    changes nothing.  The second call revokes nothing new and touches
    neither users nor any other column, but it does write the current time
    into [revokedAt] of the credentials matching [t] again: the store is
    the same only up to those timestamps, and exactly the same when the
    clock reads the same. *)
Theorem logout_total_and_repeatable env1 env2 t w :
  let w1 := snd (logout env1 t w) in
  let w2 := snd (logout env2 t w1) in
  fst (logout env1 t w) = Return tt
  /\ fst (logout env2 t w1) = Return tt
  /\ (forall r, In r (refresh_tokens (db w1)) -> RefreshToken.token r = t ->
                RefreshToken.revokedAt r = Some (now env1))
  /\ (credential t w = None -> w1 = w)
  /\ users (db w2) = users (db w1)
  /\ logger w2 = logger w1
  /\ Forall2 same_but_revokedAt (refresh_tokens (db w1)) (refresh_tokens (db w2))
  /\ (now env2 = now env1 -> w2 = w1).
Proof.
  intros w1 w2. subst w1 w2. rewrite !logout_world. cbn [fst snd db users refresh_tokens logger].
  repeat split.
  - intros r Hin Ht. apply in_map_iff in Hin. destruct Hin as (x & Hx & _).
    destruct (where_token t x) eqn:E; subst r; [reflexivity|].
    unfold where_token in E. rewrite Ht, String.eqb_refl in E. discriminate.
  - unfold credential. intro H. rewrite (revoke_nothing _ _ _ H).
    destruct w as [[us ts] lg]. reflexivity.
  - apply revoke_again_same_status.
  - intros ->. now rewrite revoke_twice.
Qed.

(** C7 as stated fails on the stored rows: Ann logs out with R1 at time
    2000 and again at time 3000; the second call is not a no-op, it moves
    [revokedAt] of R1 from 2000 to 3000. *)
Lemma logout_again_restamps :
  snd (logout Demo.e3 "R1" (snd (logout Demo.e2 "R1" Demo.signed_in)))
  <> snd (logout Demo.e2 "R1" Demo.signed_in)
  /\ option_map RefreshToken.revokedAt
       (credential "R1" (snd (logout Demo.e2 "R1" Demo.signed_in)))
     = Some (Some 2000)
  /\ option_map RefreshToken.revokedAt
       (credential "R1"
          (snd (logout Demo.e3 "R1" (snd (logout Demo.e2 "R1" Demo.signed_in)))))
     = Some (Some 3000).
Proof.
  split; [|split; vm_compute; reflexivity].
  intro H. apply (f_equal (fun w => option_map RefreshToken.revokedAt (credential "R1" w))) in H.
  vm_compute in H. discriminate H.
Qed.

End Logout.

(** ** The token verifier *)

Section Verifier.
Import Backend Prisma Service Spec.

Lemma strict_neq_true a b : b <> Some a -> strict_neq a b = true.
Proof.
  destruct b as [b|]; simpl; [|reflexivity]. intro H.
  destruct (String.eqb a b) eqn:E; [|reflexivity].
  apply String.eqb_eq in E. congruence.
Qed.

(** The verifier on a token Google accepts: it returns the claims and only
    writes to the log. *)
Lemma verifyGoogleToken_accepted cfg env idToken data w :
  tokeninfo env idToken = Some data ->
  exists entries,
    verifyGoogleToken cfg env idToken w
    = (Return data, mkWorld (db w) (logger w ++ entries)).
Proof.
  intro H. unfold verifyGoogleToken, axios_get_tokeninfo, try_catch, bind.
  rewrite H. unfold ret at 1.
  destruct (strict_neq (aud data) (firebase_webClientId cfg)
            && strict_neq (aud data) (firebase_iosClientId cfg));
    cbn; try rewrite <- app_assoc; eexists; reflexivity.
Qed.

(** The verifier on a token Google rejects. *)
Lemma verifyGoogleToken_rejected cfg env idToken w :
  tokeninfo env idToken = None ->
  verifyGoogleToken cfg env idToken w
  = (Throw (Error "Invalid Google token"),
     mkWorld (db w) (logger w ++ [(ERROR, "Failed to verify Google token")])).
Proof.
  intro H. unfold verifyGoogleToken, axios_get_tokeninfo, try_catch, bind.
  rewrite H. reflexivity.
Qed.

(** C5 (audience leniency).  Whenever Google's endpoint accepts the token,
    [verifyGoogleToken] returns its claims and leaves the store alone; when
    the audience is neither of the two configured client ids, all that
    happens in addition is one warning in the log, before the usual entry. *)
Theorem audience_mismatch_only_warns cfg env idToken data w :
  tokeninfo env idToken = Some data ->
  fst (verifyGoogleToken cfg env idToken w) = Return data
  /\ db (snd (verifyGoogleToken cfg env idToken w)) = db w
  /\ (firebase_webClientId cfg <> Some (aud data) ->
      firebase_iosClientId cfg <> Some (aud data) ->
      logger (snd (verifyGoogleToken cfg env idToken w))
      = (logger w
         ++ [(WARN, ("Token audience mismatch: expected "
                     ++ show (firebase_webClientId cfg) ++ " or "
                     ++ show (firebase_iosClientId cfg) ++ ", got " ++ aud data)%string);
             (LOG, ("Google token verified for user: "
                    ++ show (g_email data))%string)])%list).
Proof.
  intro H.
  destruct (verifyGoogleToken_accepted cfg env idToken data w H) as [entries E].
  split; [now rewrite E | split; [now rewrite E|]]. clear E entries.
  intros Hweb Hios.
  unfold verifyGoogleToken, axios_get_tokeninfo, try_catch, bind.
  rewrite H. unfold ret at 1.
  rewrite (strict_neq_true _ _ Hweb), (strict_neq_true _ _ Hios).
  cbn. now rewrite <- app_assoc.
Qed.

(** A token issued to another application is accepted, with a warning. *)
Lemma audience_mismatch_only_warns_witness :
  tokeninfo Demo.e1 "id-stranger" = Some Demo.stranger
  /\ fst (verifyGoogleToken Demo.cfg Demo.e1 "id-stranger" empty_world)
     = Return Demo.stranger
  /\ db (snd (verifyGoogleToken Demo.cfg Demo.e1 "id-stranger" empty_world))
     = db empty_world
  /\ (firebase_webClientId Demo.cfg <> Some (aud Demo.stranger) ->
      firebase_iosClientId Demo.cfg <> Some (aud Demo.stranger) ->
      logger (snd (verifyGoogleToken Demo.cfg Demo.e1 "id-stranger" empty_world))
      = (logger empty_world
         ++ [(WARN, ("Token audience mismatch: expected "
                     ++ show (firebase_webClientId Demo.cfg) ++ " or "
                     ++ show (firebase_iosClientId Demo.cfg) ++ ", got "
                     ++ aud Demo.stranger)%string);
             (LOG, ("Google token verified for user: "
                    ++ show (g_email Demo.stranger))%string)])%list).
Proof.
  split; [reflexivity|].
  apply (audience_mismatch_only_warns Demo.cfg Demo.e1 "id-stranger" Demo.stranger
                                      empty_world).
  reflexivity.
Defined.

Example stranger_is_logged :
  logger (snd (verifyGoogleToken Demo.cfg Demo.e1 "id-stranger" empty_world))
  = [(WARN, "Token audience mismatch: expected web-client-id or ios-client-id, got another-app");
     (LOG, "Google token verified for user: eve@x.org")].
Proof. reflexivity. Qed.

End Verifier.

(** ** Failures of the Google sign-in *)

Section GoogleFailures.
Import Backend Prisma Service Spec.

(** Claims without an email: the unauthorized error, nothing stored. *)
Lemma google_login_without_email cfg env idToken g w :
  tokeninfo env idToken = Some g ->
  truthy (g_email g) = false ->
  fst (loginWithGoogle cfg env idToken w)
  = Throw (UnauthorizedException "Email not provided by Google")
  /\ db (snd (loginWithGoogle cfg env idToken w)) = db w.
Proof.
  intros H He.
  assert (exists entries,
             loginWithGoogle cfg env idToken w
             = (Throw (UnauthorizedException "Email not provided by Google"),
                mkWorld (db w) (logger w ++ entries))) as [entries ->].
  { unfold loginWithGoogle. unfold bind at 1.
    destruct (verifyGoogleToken_accepted cfg env idToken g w H) as [entries ->].
    exists entries.
    destruct (g_email g) as [[|c r]|]; try discriminate He; reflexivity. }
  split; reflexivity.
Qed.

(** C6, the rejected token.  When Google rejects the token,
    [loginWithGoogle] fails and stores nothing, but what it throws is the
    plain [Error('Invalid Google token')] of the verifier, which is not an
    [UnauthorizedException]: the caller gets a 500, not the 401 that the
    controller documents for an invalid token. *)
Theorem rejected_google_token_is_a_plain_error cfg env idToken w :
  tokeninfo env idToken = None ->
  fst (loginWithGoogle cfg env idToken w) = Throw (Error "Invalid Google token")
  /\ is_unauthorized (Error "Invalid Google token") = false
  /\ db (snd (loginWithGoogle cfg env idToken w)) = db w.
Proof.
  intro H.
  assert (loginWithGoogle cfg env idToken w
          = (Throw (Error "Invalid Google token"),
             mkWorld (db w) (logger w ++ [(ERROR, "Failed to verify Google token")])))
    as ->.
  { unfold loginWithGoogle. unfold bind at 1.
    now rewrite (verifyGoogleToken_rejected cfg env idToken w H). }
  repeat split.
Qed.

Lemma rejected_google_token_is_a_plain_error_witness :
  tokeninfo Demo.e1 "forged" = None
  /\ fst (loginWithGoogle Demo.cfg Demo.e1 "forged" empty_world)
     = Throw (Error "Invalid Google token")
  /\ is_unauthorized (Error "Invalid Google token") = false
  /\ db (snd (loginWithGoogle Demo.cfg Demo.e1 "forged" empty_world)) = db empty_world.
Proof.
  split; [reflexivity|].
  apply (rejected_google_token_is_a_plain_error Demo.cfg Demo.e1 "forged" empty_world).
  reflexivity.
Defined.

Example anonymous_is_unauthorized :
  fst (loginWithGoogle Demo.cfg Demo.e1 "id-anonymous" empty_world)
  = Throw (UnauthorizedException "Email not provided by Google").
Proof. reflexivity. Qed.

End GoogleFailures.

(** ** Soft-deleted users *)

Section SoftDelete.
Import Backend Prisma Service Spec.

Lemma find_none_of_all {A} (p : A -> bool) l :
  (forall x, In x l -> p x = false) -> find p l = None.
Proof.
  intro H. destruct (find p l) as [x|] eqn:E; [|reflexivity].
  apply find_some in E. destruct E as [Hin Hp]. rewrite (H _ Hin) in Hp. discriminate.
Qed.

Lemma live_lookup_misses_deleted (sel : User.t -> bool) l :
  (forall u, In u l -> sel u = true -> soft_deleted u) ->
  find (fun u => sel u && deletedAt_null u) l = None.
Proof.
  intro H. apply find_none_of_all. intros u Hin.
  destruct (sel u) eqn:Hs; [|reflexivity].
  specialize (H u Hin Hs). unfold soft_deleted in H. unfold deletedAt_null.
  destruct (User.deletedAt u); [reflexivity | congruence].
Qed.

(** [getMe] never reaches a soft-deleted row. *)
Lemma getMe_excludes_deleted i w :
  (forall u, In u (users (db w)) -> where_id i u = true -> soft_deleted u) ->
  getMe i w = (Throw (UnauthorizedException "User not found"), w).
Proof.
  intro H. unfold getMe, user_findUnique, bind, get_db. cbn [db fst snd].
  unfold ret at 1. now rewrite live_lookup_misses_deleted.
Qed.

(** [login] never reaches a soft-deleted row. *)
Lemma login_excludes_deleted cfg env e p w :
  (forall u, In u (users (db w)) -> where_email e u = true -> soft_deleted u) ->
  login cfg env e p w = (Throw (UnauthorizedException "Invalid credentials"), w).
Proof.
  intro H. unfold login, user_findUnique, bind, get_db. cbn [db fst snd].
  unfold ret at 1. now rewrite live_lookup_misses_deleted.
Qed.

(** [JwtStrategy.validate] never reaches a soft-deleted row. *)
Lemma validate_excludes_deleted c r w :
  (forall u, In u (users (db w)) -> where_id (String c r) u = true -> soft_deleted u) ->
  validate (Some (String c r)) w = (Throw (UnauthorizedException "User not found"), w).
Proof.
  intro H. unfold validate, user_findUnique, bind, get_db. cbn [db fst snd].
  unfold ret at 1. now rewrite live_lookup_misses_deleted.
Qed.

(** C4 on the code.  Ann signs in with Google (user u1, credential R1) and
    her account is soft-deleted.  [getMe], [login] and [validate] no longer
    find her; [loginWithGoogle] with her claims and [refreshTokens] with R1
    both still succeed and mint tokens for u1, whose row stays deleted. *)
Theorem soft_deleted_user_still_gets_tokens :
  Forall soft_deleted (users (db Demo.deleted))
  /\ fst (getMe "u1" Demo.deleted) = Throw (UnauthorizedException "User not found")
  /\ fst (login Demo.cfg Demo.e3 "a@b.com" "pw" Demo.deleted)
     = Throw (UnauthorizedException "Invalid credentials")
  /\ fst (validate (Some "u1") Demo.deleted)
     = Throw (UnauthorizedException "User not found")
  /\ (exists r, fst (loginWithGoogle Demo.cfg Demo.e3 "id-ann" Demo.deleted) = Return r
                /\ p_id (user r) = "u1"
                /\ at_sub (accessToken (tokens r)) = "u1")
  /\ (exists tk, fst (refreshTokens Demo.cfg Demo.e3 "R1" Demo.deleted) = Return tk
                 /\ at_sub (accessToken tk) = "u1")
  /\ Forall soft_deleted
       (users (db (snd (loginWithGoogle Demo.cfg Demo.e3 "id-ann" Demo.deleted)))).
Proof.
  repeat split.
  - vm_compute. repeat constructor; discriminate.
  - vm_compute. eexists. repeat split.
  - vm_compute. eexists. repeat split.
  - vm_compute. repeat constructor; discriminate.
Qed.

End SoftDelete.

(** ** Upsert by email *)

Section UserTable.
Import Backend Prisma Service Spec.

Lemma find_head_filter {A} (p : A -> bool) l : find p l = hd_error (filter p l).
Proof.
  induction l as [|x l IH]; simpl; [reflexivity|]. destruct (p x); [reflexivity | exact IH].
Qed.

Lemma existsb_filter_false {A} (p q : A -> bool) l :
  existsb p l = false -> existsb p (filter q l) = false.
Proof.
  induction l as [|x l IH]; simpl; [reflexivity|].
  intro H. apply orb_false_iff in H. destruct H as [Hx Hl].
  destruct (q x); simpl; [rewrite Hx|]; auto.
Qed.

Lemma find_none_existsb {A} (p : A -> bool) l : find p l = None -> existsb p l = false.
Proof.
  induction l as [|x l IH]; simpl; [reflexivity|].
  destruct (p x); [discriminate | exact IH].
Qed.

Lemma existsb_false_filter_nil {A} (p : A -> bool) l : existsb p l = false -> filter p l = [].
Proof.
  induction l as [|x l IH]; simpl; [reflexivity|].
  destruct (p x); [discriminate | exact IH].
Qed.

(** In a column without duplicates, selecting by the key of a row of the
    table finds that row and no other. *)
Lemma filter_unique_key (key : User.t -> string) l u :
  NoDup (map key l) -> In u l ->
  filter (fun x => String.eqb (key x) (key u)) l = [u].
Proof.
  induction l as [|x l IH]; simpl; intros Hnd Hin; [contradiction|].
  inversion Hnd as [|? ? Hx Hl]; subst.
  destruct Hin as [-> | Hin].
  - rewrite String.eqb_refl. f_equal. apply existsb_false_filter_nil.
    destruct (existsb (fun x => String.eqb (key x) (key u)) l) eqn:E; [|reflexivity].
    apply existsb_exists in E. destruct E as (y & Hy & Ey).
    apply String.eqb_eq in Ey. exfalso. apply Hx. rewrite <- Ey. now apply in_map.
  - destruct (String.eqb (key x) (key u)) eqn:E.
    + apply String.eqb_eq in E. exfalso. apply Hx. rewrite E. now apply in_map.
    + now apply IH.
Qed.

Lemma find_unique_key (key : User.t -> string) l u :
  NoDup (map key l) -> In u l ->
  find (fun x => String.eqb (key x) (key u)) l = Some u.
Proof.
  intros Hnd Hin. now rewrite find_head_filter, (filter_unique_key key l u Hnd Hin).
Qed.

Lemma filter_in_place (p : User.t -> bool) i f l :
  (forall x, p (f x) = p x) ->
  filter p (map (in_place i f) l) = map (in_place i f) (filter p l).
Proof.
  intro Hp. induction l as [|x l IH]; simpl; [reflexivity|].
  assert (p (in_place i f x) = p x) as ->
      by (unfold in_place; destruct (where_id i x); auto).
  destruct (p x); simpl; now rewrite IH.
Qed.

Lemma find_in_place (p : User.t -> bool) i f l :
  (forall x, p (f x) = p x) ->
  find p (map (in_place i f) l) = option_map (in_place i f) (find p l).
Proof.
  intro Hp. rewrite !find_head_filter, filter_in_place by exact Hp.
  now destruct (filter p l).
Qed.

Lemma others_in_place i f l :
  (forall x, User.id (f x) = User.id x) ->
  others i (map (in_place i f) l) = others i l.
Proof.
  intro Hid. unfold others. induction l as [|x l IH]; simpl; [reflexivity|].
  assert (where_id i (in_place i f x) = where_id i x) as ->
      by (unfold in_place, where_id; destruct (String.eqb (User.id x) i) eqn:E;
          [now rewrite Hid | exact E]).
  rewrite IH. unfold in_place. destruct (where_id i x); reflexivity.
Qed.

Lemma others_app i l x :
  where_id i x = true -> others i (l ++ [x]) = others i l.
Proof.
  intro H. unfold others. rewrite filter_app. simpl. rewrite H. simpl. apply app_nil_r.
Qed.

End UserTable.

Section UpsertFacts.
Import Backend Prisma Service Spec.

Lemma user_update_ok i f u w :
  find (where_id i) (users (db w)) = Some u ->
  existsb (where_email (User.email (f u))) (others i (users (db w))) = false ->
  existsb (same_identity (f u)) (others i (users (db w))) = false ->
  user_update i f w
  = (Return (f u),
     mkWorld (mkDb (map (in_place i f) (users (db w))) (refresh_tokens (db w)))
             (logger w)).
Proof.
  intros Hf H1 H2. unfold others in *.
  unfold user_update, bind, get_db, put_db, ret. cbn [db fst snd].
  now rewrite Hf, H1, H2.
Qed.

Lemma user_update_returns i f w r w' :
  user_update i f w = (Return r, w') ->
  exists u,
    find (where_id i) (users (db w)) = Some u
    /\ r = f u
    /\ existsb (where_email (User.email (f u))) (others i (users (db w))) = false
    /\ existsb (same_identity (f u)) (others i (users (db w))) = false
    /\ w' = mkWorld (mkDb (map (in_place i f) (users (db w))) (refresh_tokens (db w)))
                    (logger w).
Proof.
  unfold others, user_update, bind, get_db, put_db, ret, throw. cbn [db fst snd].
  destruct (find (where_id i) (users (db w))) as [u|]; [|discriminate].
  destruct (existsb (where_email (User.email (f u))) _) eqn:H1; [discriminate|].
  destruct (existsb (same_identity (f u)) _) eqn:H2; [discriminate|].
  intro H. inversion H; subst. exists u. auto.
Qed.

Lemma user_create_returns u w r w' :
  user_create u w = (Return r, w') ->
  r = u
  /\ existsb (where_id (User.id u)) (users (db w)) = false
  /\ existsb (where_email (User.email u)) (users (db w)) = false
  /\ existsb (same_identity u) (users (db w)) = false
  /\ w' = mkWorld (mkDb (users (db w) ++ [u]) (refresh_tokens (db w))) (logger w).
Proof.
  unfold user_create, bind, get_db, put_db, ret, throw. cbn [db fst snd].
  destruct (existsb (where_id (User.id u)) _); [discriminate|].
  destruct (existsb (where_email (User.email u)) _); [discriminate|].
  destruct (existsb (same_identity u) _); [discriminate|].
  intro H. inversion H; subst. auto.
Qed.

Lemma generateTokens_ok cfg env uid e r w :
  truthy (jwt_secret cfg) = true ->
  fresh_uuids env w = true ->
  existsb (where_id uid) (users (db w)) = true ->
  generateTokens cfg env uid e r w
  = (Return (mkTokens (mkAccessToken uid e r (now env) (accessExpiresIn cfg))
                      (uuid_token env)),
     mkWorld (mkDb (users (db w))
                   (refresh_tokens (db w)
                    ++ [RefreshToken.mk (uuid_row env) (uuid_token env) uid
                          (now env + 1000 * refreshSeconds cfg) (now env) None]))
             (logger w)).
Proof.
  intros Hs Hfresh Hu. rewrite generateTokens_cases, Hs, Hu.
  unfold fresh_uuids in Hfresh. apply andb_true_iff in Hfresh.
  destruct Hfresh as [H1 H2]. apply negb_true_iff in H1, H2. now rewrite H1, H2.
Qed.

Lemma generateTokens_needs_secret cfg env uid e r w tk w' :
  generateTokens cfg env uid e r w = (Return tk, w') -> truthy (jwt_secret cfg) = true.
Proof.
  rewrite generateTokens_cases. destruct (truthy (jwt_secret cfg)); [reflexivity | discriminate].
Qed.

(** [loginWithGoogle] once Google has accepted a token with an email. *)
Lemma loginWithGoogle_accepted cfg env t g c r w :
  tokeninfo env t = Some g ->
  g_email g = Some (String c r) ->
  exists entries,
    loginWithGoogle cfg env t w
    = match user_upsert (String c r) (google_create env (String c r) g)
                        (google_update env g)
                        (mkWorld (db w) (logger w ++ entries)) with
      | (Return u, wu) =>
          match generateTokens cfg env (User.id u) (User.email u) (User.role u) wu with
          | (Return tk, wt) => (Return (mkAuthResponse (select_profile u) tk), wt)
          | (Throw x, wt) => (Throw x, wt)
          end
      | (Throw x, wu) => (Throw x, wu)
      end.
Proof.
  intros H He. destruct (verifyGoogleToken_accepted cfg env t g w H) as [entries E].
  exists entries. unfold loginWithGoogle. unfold bind at 1. rewrite E, He.
  unfold bind, ret.
  destruct (user_upsert _ _ _ _) as [[u|x] wu]; [|reflexivity]. simpl.
  destruct (generateTokens _ _ _ _ _ _) as [[tk|x] wt]; reflexivity.
Qed.

End UpsertFacts.

Section GoogleLogin.
Import Backend Prisma Service Spec.

Lemma google_update_id env g x : User.id (google_update env g x) = User.id x.
Proof. reflexivity. Qed.

Lemma where_email_google_update e env g x :
  where_email e (google_update env g x) = where_email e x.
Proof. reflexivity. Qed.

Lemma where_id_google_update i env g x :
  where_id i (google_update env g x) = where_id i x.
Proof. reflexivity. Qed.

(** The first sign-in leaves the user bound to the claims. *)
Lemma first_login_binds cfg env t g c r w r1 w1 :
  consistent w ->
  tokeninfo env t = Some g ->
  g_email g = Some (String c r) ->
  loginWithGoogle cfg env t w = (Return r1, w1) ->
  exists u, bound (String c r) (sub g) (p_id (user r1)) u w1
            /\ truthy (jwt_secret cfg) = true.
Proof.
  intros [Hids Hemails] Ht He H.
  destruct (loginWithGoogle_accepted cfg env t g c r w Ht He) as [entries E].
  rewrite E in H. clear E.
  unfold user_upsert, user_findUnique in H. unfold bind at 1 2 in H.
  unfold get_db, ret in H. cbn [db fst snd] in H.
  destruct (find (where_email (String c r)) (users (db w))) as [u|] eqn:Hfind.
  - destruct (user_update _ _ _) as [[u'|x] wu] eqn:Hup; [|discriminate H].
    destruct (generateTokens _ _ _ _ _ _) as [[tk|x] wt] eqn:Hg; [|discriminate H].
    inversion H; subst r1 w1; clear H.
    apply user_update_returns in Hup.
    destruct Hup as (u0 & Hf0 & -> & Hc1 & Hc2 & ->). cbn [db users] in *.
    pose proof (find_some _ _ Hfind) as [Hin Hmail]. apply String.eqb_eq in Hmail.
    assert (u0 = u) as -> by
        (pose proof (find_unique_key User.id _ _ Hids Hin) as K;
         unfold where_id in Hf0; congruence).
    destruct (generateTokens_returns _ _ _ _ _ _ _ _ Hg) as (_ & _ & Husers & _).
    exists (google_update env g u). split;
      [|exact (generateTokens_needs_secret _ _ _ _ _ _ _ _ Hg)].
    unfold bound. rewrite Husers. cbn [db users user p_id select_profile].
    rewrite filter_in_place by apply where_email_google_update.
    rewrite find_in_place by apply where_id_google_update.
    rewrite others_in_place by apply google_update_id.
    change (User.id (google_update env g u)) with (User.id u).
    change (User.email (google_update env g u)) with (User.email u) in *.
    rewrite Hf0. cbn [option_map].
    pose proof (filter_unique_key User.email _ _ Hemails Hin) as Honly.
    rewrite Hmail in Honly. unfold where_email at 1. rewrite Honly. cbn [map].
    assert (in_place (User.id u) (google_update env g) u = google_update env g u) as ->
        by (unfold in_place, where_id; now rewrite String.eqb_refl).
    rewrite Hmail in Hc1. auto 10.
  - destruct (user_create _ _) as [[u'|x] wu] eqn:Hcr; [|discriminate H].
    destruct (generateTokens _ _ _ _ _ _) as [[tk|x] wt] eqn:Hg; [|discriminate H].
    inversion H; subst r1 w1; clear H.
    apply user_create_returns in Hcr.
    destruct Hcr as (-> & Hc0 & Hc1 & Hc2 & ->). cbn [db users] in *.
    destruct (generateTokens_returns _ _ _ _ _ _ _ _ Hg) as (_ & _ & Husers & _).
    exists (google_create env (String c r) g). split;
      [|exact (generateTokens_needs_secret _ _ _ _ _ _ _ _ Hg)].
    unfold bound. rewrite Husers. cbn [db users user p_id select_profile].
    cbn [google_create User.id User.email User.providerId] in *.
    rewrite filter_app, (existsb_false_filter_nil _ _ Hc1).
    rewrite find_app_fresh by exact Hc0.
    rewrite others_app by (unfold where_id; apply String.eqb_refl).
    unfold others. rewrite !existsb_filter_false by assumption.
    cbn [filter app where_email where_id User.id User.email].
    assert (where_email (String c r) (google_create env (String c r) g) = true) as ->
        by apply String.eqb_refl.
    assert (where_id (uuid_user env) (google_create env (String c r) g) = true) as ->
        by apply String.eqb_refl.
    auto 10.
Qed.

End GoogleLogin.

Section GoogleLoginAgain.
Import Backend Prisma Service Spec.

(** Signing in again with the same claims updates the bound row. *)
Lemma relogin cfg env t g c r i u w :
  bound (String c r) (sub g) i u w ->
  truthy (jwt_secret cfg) = true ->
  tokeninfo env t = Some g ->
  g_email g = Some (String c r) ->
  fresh_uuids env w = true ->
  exists tk w2,
    loginWithGoogle cfg env t w
    = (Return (mkAuthResponse (select_profile (google_update env g u)) tk), w2)
    /\ users (db w2) = map (in_place i (google_update env g)) (users (db w)).
Proof.
  intros (Honly & Hid & Hmail & Hfind & Hsub & Hc1 & Hc2) Hsecret Ht He Hfresh.
  destruct (loginWithGoogle_accepted cfg env t g c r w Ht He) as [entries E].
  rewrite E. clear E.
  unfold user_upsert, user_findUnique. unfold bind at 1 2.
  unfold get_db, ret. cbn [db fst snd].
  rewrite find_head_filter, Honly. cbn [hd_error]. rewrite Hid.
  erewrite user_update_ok; cbn [db users]; try eassumption.
  - rewrite generateTokens_ok.
    + do 2 eexists. split; reflexivity.
    + exact Hsecret.
    + exact Hfresh.
    + cbn [db users]. change (User.id (google_update env g u)) with (User.id u).
      rewrite Hid. apply find_existsb with (y := in_place i (google_update env g) u).
      rewrite find_in_place by apply where_id_google_update. now rewrite Hfind.
  - change (User.email (google_update env g u)) with (User.email u).
    now rewrite Hmail.
  - unfold same_identity in *. cbn [google_update User.provider User.providerId].
    rewrite <- Hsub. exact Hc2.
Qed.

(** C3 (identity idempotence).  On a consistent store, when a Google
    sign-in with claims carrying email [e] has succeeded, a second sign-in
    with the same claims (and unused identifiers for the new credential)
    succeeds as well, returns the same user id, creates no row, and leaves
    exactly one row with email [e]: the row of that user, now carrying the
    provider subject and the avatar of the claims. *)
Theorem google_login_twice_same_user cfg env1 env2 idToken g e w r1 w1 :
  consistent w ->
  tokeninfo env1 idToken = Some g ->
  tokeninfo env2 idToken = Some g ->
  g_email g = Some e ->
  loginWithGoogle cfg env1 idToken w = (Return r1, w1) ->
  fresh_uuids env2 w1 = true ->
  exists r2 w2 u,
    loginWithGoogle cfg env2 idToken w1 = (Return r2, w2)
    /\ p_id (user r2) = p_id (user r1)
    /\ length (users (db w2)) = length (users (db w1))
    /\ rows_with_email e w1 = [u]
    /\ rows_with_email e w2 = [google_update env2 g u]
    /\ User.id u = p_id (user r1)
    /\ User.providerId (google_update env2 g u) = Some (sub g)
    /\ User.avatarUrl (google_update env2 g u) = or_null (picture g).
Proof.
  intros Hcons Ht1 Ht2 He H1 Hfresh.
  destruct e as [|c r].
  { exfalso.
    destruct (google_login_without_email cfg env1 idToken g w Ht1) as [K _];
      [now rewrite He|].
    rewrite H1 in K. discriminate K. }
  destruct (first_login_binds cfg env1 idToken g c r w r1 w1 Hcons Ht1 He H1)
    as (u & Hb & Hsecret).
  destruct (relogin cfg env2 idToken g c r _ u w1 Hb Hsecret Ht2 He Hfresh)
    as (tk & w2 & H2 & Husers).
  destruct Hb as (Honly & Hid & Hmail & Hfind & Hsub & Hc1 & Hc2).
  exists (mkAuthResponse (select_profile (google_update env2 g u)) tk), w2, u.
  split; [exact H2|]. cbn [user p_id select_profile].
  change (User.id (google_update env2 g u)) with (User.id u).
  repeat split; auto.
  - rewrite Husers. apply length_map.
  - unfold rows_with_email. rewrite Husers.
    rewrite filter_in_place by apply where_email_google_update.
    rewrite Honly. cbn [map]. unfold in_place, where_id.
    now rewrite Hid, String.eqb_refl.
Qed.

End GoogleLoginAgain.

(** Scenario 1 of the specification: Ann signs in twice. *)
Lemma google_login_twice_same_user_witness :
  Spec.consistent Service.empty_world
  /\ Backend.tokeninfo Demo.e1 "id-ann" = Some Demo.ann
  /\ Backend.tokeninfo Demo.e2 "id-ann" = Some Demo.ann
  /\ Backend.g_email Demo.ann = Some "a@b.com"
  /\ Service.loginWithGoogle Demo.cfg Demo.e1 "id-ann" Service.empty_world
     = (Backend.Return
          (Backend.mkAuthResponse
             (Backend.mkProfile "u1" "a@b.com" (Some "Ann") None None Backend.USER
                                false 1000)
             (Backend.mkTokens
                (Backend.mkAccessToken "u1" "a@b.com" Backend.USER 1000 900) "R1")),
        Demo.signed_in)
  /\ Spec.fresh_uuids Demo.e2 Demo.signed_in = true
  /\ exists r2 w2 u,
       Service.loginWithGoogle Demo.cfg Demo.e2 "id-ann" Demo.signed_in
       = (Backend.Return r2, w2)
       /\ Backend.p_id (Backend.user r2) = "u1"
       /\ length (Backend.users (Backend.db w2))
          = length (Backend.users (Backend.db Demo.signed_in))
       /\ Spec.rows_with_email "a@b.com" Demo.signed_in = [u]
       /\ Spec.rows_with_email "a@b.com" w2 = [Service.google_update Demo.e2 Demo.ann u]
       /\ Backend.User.id u = "u1"
       /\ Backend.User.providerId (Service.google_update Demo.e2 Demo.ann u)
          = Some "g-123"
       /\ Backend.User.avatarUrl (Service.google_update Demo.e2 Demo.ann u)
          = Backend.or_null (Backend.picture Demo.ann).
Proof.
  assert (Spec.consistent Service.empty_world) as Hc by (split; constructor).
  assert (Service.loginWithGoogle Demo.cfg Demo.e1 "id-ann" Service.empty_world
          = (Backend.Return
               (Backend.mkAuthResponse
                  (Backend.mkProfile "u1" "a@b.com" (Some "Ann") None None Backend.USER
                                     false 1000)
                  (Backend.mkTokens
                     (Backend.mkAccessToken "u1" "a@b.com" Backend.USER 1000 900) "R1")),
             Demo.signed_in)) as H1 by (vm_compute; reflexivity).
  assert (Spec.fresh_uuids Demo.e2 Demo.signed_in = true) as Hf
      by (vm_compute; reflexivity).
  repeat (split; [assumption || reflexivity|]).
  exact (google_login_twice_same_user Demo.cfg Demo.e1 Demo.e2 "id-ann" Demo.ann
           "a@b.com" Service.empty_world _ _ Hc eq_refl eq_refl eq_refl H1 Hf).
Defined.

(** ** The constraints of [users] are an invariant *)

Section Consistency.
Import Backend Prisma Service Spec.

Lemma keeps_refl w : keeps_consistent w w.
Proof. intro H. exact H. Qed.

Lemma keeps_trans a b c : keeps_consistent a b -> keeps_consistent b c -> keeps_consistent a c.
Proof. unfold keeps_consistent. auto. Qed.

Lemma same_users_keeps w w' : users (db w') = users (db w) -> keeps_consistent w w'.
Proof. intros E H. unfold consistent in *. now rewrite E. Qed.

Lemma not_in_column (key : User.t -> string) k l :
  existsb (fun x => String.eqb (key x) k) l = false -> ~ In k (map key l).
Proof.
  intros H Hin. apply in_map_iff in Hin. destruct Hin as (x & Hk & Hx).
  assert (existsb (fun x => String.eqb (key x) k) l = true) as K
      by (apply existsb_exists; exists x; split; [exact Hx | now apply String.eqb_eq]).
  congruence.
Qed.

Lemma NoDup_snoc (l : list string) k : NoDup l -> ~ In k l -> NoDup (l ++ [k]).
Proof.
  intros Hl Hk. apply NoDup_app; [exact Hl | repeat constructor; simpl; tauto |].
  intros x Hx [<- | []]. exact (Hk Hx).
Qed.

Lemma keeps_user_create u : respects keeps_consistent (user_create u).
Proof.
  intros w [Hids Hemails]. unfold user_create, bind, get_db, put_db, ret, throw.
  cbn [db fst snd].
  destruct (existsb (where_id (User.id u)) (users (db w))) eqn:H0; [now split|].
  destruct (existsb (where_email (User.email u)) (users (db w))) eqn:H1; [now split|].
  destruct (existsb (same_identity u) (users (db w))); [now split|].
  unfold consistent. cbn [db users snd]. rewrite !map_app. cbn [map].
  split; apply NoDup_snoc; auto using not_in_column.
Qed.

Lemma map_key_in_place (key : User.t -> string) i f l :
  (forall x, key (f x) = key x) -> map key (map (in_place i f) l) = map key l.
Proof.
  intro H. rewrite map_map. apply map_ext. intro x. unfold in_place.
  destruct (where_id i x); auto.
Qed.

Lemma keeps_user_update i f :
  (forall x, User.id (f x) = User.id x) ->
  (forall x, User.email (f x) = User.email x) ->
  respects keeps_consistent (user_update i f).
Proof.
  intros Hid Hmail w [Hids Hemails].
  unfold user_update, bind, get_db, put_db, ret, throw. cbn [db fst snd].
  destruct (find (where_id i) (users (db w))) as [u|]; [|now split].
  destruct (existsb _ _); [now split|].
  destruct (existsb _ _); [now split|].
  unfold consistent. cbn [db users snd]. now rewrite !map_key_in_place.
Qed.

Ltac keep_using known :=
  repeat first
    [ known
    | apply respects_ret; exact keeps_refl
    | apply respects_throw; exact keeps_refl
    | apply keeps_user_create
    | apply keeps_user_update; reflexivity
    | apply respects_bind; [exact keeps_trans | | intro]
    | apply respects_try_catch; [exact keeps_trans | | intro]
    | match goal with
      | |- respects _ (match ?x with _ => _ end) => destruct x
      | |- respects _ (if ?b then _ else _) => destruct b
      end
    | intro; apply same_users_keeps; reflexivity ].

Variable cfg : Config.
Variable env : Env.

Lemma keeps_refreshToken_create i t uid ex cr :
  respects keeps_consistent (refreshToken_create i t uid ex cr).
Proof.
  intro w. apply same_users_keeps. unfold refreshToken_create, bind, get_db.
  cbn [db fst snd].
  repeat (match goal with |- context [if ?b then _ else _] => destruct b end;
          try reflexivity).
Qed.

Lemma keeps_update_revokedAt i at_ :
  respects keeps_consistent (refreshToken_update_revokedAt i at_).
Proof.
  intro w. apply same_users_keeps. unfold refreshToken_update_revokedAt, bind, get_db.
  cbn [db fst snd]. destruct (existsb _ _); reflexivity.
Qed.

Lemma keeps_refreshToken_findUnique t :
  respects keeps_consistent (refreshToken_findUnique t).
Proof.
  intro w. apply same_users_keeps. unfold refreshToken_findUnique, bind, get_db.
  cbn [db fst snd]. destruct (find _ _); reflexivity.
Qed.

Lemma keeps_generateTokens uid e r :
  respects keeps_consistent (generateTokens cfg env uid e r).
Proof.
  unfold generateTokens, jwt_sign.
  keep_using ltac:(apply keeps_refreshToken_create).
Qed.

Lemma keeps_handle q w : keeps_consistent w (handle cfg env q w).
Proof.
  destruct q; simpl.
  - assert (respects keeps_consistent (loginWithGoogle cfg env idToken)) as K; [|apply K].
    unfold loginWithGoogle, verifyGoogleToken, axios_get_tokeninfo, user_upsert,
      user_findUnique.
    keep_using ltac:(apply keeps_generateTokens).
  - assert (respects keeps_consistent
              (register cfg env email_ password_ firstName_ lastName_)) as K; [|apply K].
    unfold register, user_findUnique. keep_using ltac:(apply keeps_generateTokens).
  - assert (respects keeps_consistent (login cfg env email_ password_)) as K; [|apply K].
    unfold login, user_findUnique. keep_using ltac:(apply keeps_generateTokens).
  - apply same_users_keeps. unfold getMe, user_findUnique, bind, get_db.
    cbn [db fst snd]. unfold ret at 1. destruct (find _ _); reflexivity.
  - assert (respects keeps_consistent (completeOnboarding env userId)) as K; [|apply K].
    unfold completeOnboarding. keep_using fail.
  - assert (respects keeps_consistent (refreshTokens cfg env refreshToken_)) as K;
      [|apply K].
    unfold refreshTokens.
    keep_using ltac:(first [ apply keeps_generateTokens
                           | apply keeps_update_revokedAt
                           | apply keeps_refreshToken_findUnique ]).
  - apply same_users_keeps. reflexivity.
  - assert (respects keeps_consistent (remove env id_)) as K; [|apply K].
    unfold remove, findOne, user_findUnique. keep_using fail.
Qed.

End Consistency.

(** Every store the backend can reach from the empty one is consistent. *)
Lemma reachable_consistent cfg history :
  Spec.consistent (Service.run cfg history Service.empty_world).
Proof.
  assert (forall w, Spec.consistent w -> Spec.consistent (Service.run cfg history w)) as H.
  { induction history as [|[env q] rest IH]; intros w Hw; simpl; [exact Hw|].
    apply IH. now apply keeps_handle. }
  apply H. split; constructor.
Qed.

(** ** The response interceptor of the client *)

Section Interceptor.
Import Client.

Lemma onRequest_retry s c : _retry (onRequest s c) = _retry c.
Proof. unfold onRequest. destruct (truthy (accessToken s)); reflexivity. Qed.

(** A request that is already marked is never recovered: its failure goes
    straight to the caller. *)
Lemma onRejected_marked replay e w :
  _retry (config e) = true -> onRejected replay e w = reject e w.
Proof.
  intro H. unfold onRejected. rewrite H, andb_false_r. reflexivity.
Qed.

Lemma api_marked fuel c w :
  _retry c = true -> api (S fuel) c w = attempt reject c w.
Proof.
  intro H. simpl. unfold attempt.
  destruct (send (onRequest (store w) c) w) as [[status body|] w1].
  - destruct ((200 <=? status) && (status <? 300)); [reflexivity|].
    apply onRejected_marked. simpl. now rewrite onRequest_retry.
  - apply onRejected_marked. simpl. now rewrite onRequest_retry.
Qed.

(** The only config the interceptor replays is one it has marked. *)
Lemma onRejected_replays_marked r1 r2 e w :
  (forall c w', _retry c = true -> r1 c w' = r2 c w') ->
  onRejected r1 e w = onRejected r2 e w.
Proof.
  intro H. unfold onRejected.
  destruct (status_is e 401 && negb (_retry (config e))); [|reflexivity].
  destruct (negb (truthy (refreshToken (store w)))); [reflexivity|].
  destruct (postRefresh (refreshToken (store w)) w) as [[a n|] w1]; [|reflexivity].
  destruct (login _ _ _ _); [|reflexivity].
  apply H. reflexivity.
Qed.

(** Two units of fuel are all [api] ever uses. *)
Lemma api_closed_form fuel c w :
  api (S (S fuel)) c w = attempt (onRejected (attempt reject)) c w.
Proof.
  change (api (S (S fuel)) c w) with (attempt (onRejected (api (S fuel))) c w).
  unfold attempt.
  destruct (send (onRequest (store w) c) w) as [[status body|] w1].
  - destruct ((200 <=? status) && (status <? 300)); [reflexivity|].
    apply onRejected_replays_marked. intros. now apply api_marked.
  - apply onRejected_replays_marked. intros. now apply api_marked.
Qed.

Lemma count_refresh_app l l' :
  count_refresh (l ++ l') = (count_refresh l + count_refresh l')%nat.
Proof. unfold count_refresh. now rewrite filter_app, length_app. Qed.

Lemma count_sent_app l l' :
  count_sent (l ++ l') = (count_sent l + count_sent l')%nat.
Proof. unfold count_sent. now rewrite filter_app, length_app. Qed.

End Interceptor.

Section RetryOnce.
Import Client.

Ltac cases :=
  repeat (match goal with
          | |- context [match ?x with _ => _ end] =>
              lazymatch x with
              | context [match _ with _ => _ end] => fail
              | _ => destruct x eqn:?
              end
          end; cbn [fst snd events store replies refreshReplies config response
                    _retry andb negb] in *).

(** However the network answers, one request leads to at most one call of
    the refresh endpoint and at most two sends. *)
Lemma recovery_is_bounded c w :
  _retry c = false ->
  fst (attempt (onRejected (attempt reject)) c w) <> Pending
  /\ (count_refresh (events (snd (attempt (onRejected (attempt reject)) c w)))
      <= count_refresh (events w) + 1)%nat
  /\ (count_sent (events (snd (attempt (onRejected (attempt reject)) c w)))
      <= count_sent (events w) + 2)%nat.
Proof.
  intro H.
  unfold attempt, onRejected, reject, send, postRefresh, onRefreshError, with_store,
    login, setAccessToken, status_is.
  cbn [fst snd events store replies refreshReplies config response _retry].
  cases;
    (split; [discriminate|]);
    rewrite ?count_refresh_app, ?count_sent_app; cbn; lia.
Qed.

(** The answers [401, 401] around a successful refresh. *)
Lemma second_401_is_surfaced c w b1 b2 rest a n rrest u :
  _retry c = false ->
  replies w = Http 401 b1 :: Http 401 b2 :: rest ->
  refreshReplies w = RefreshResolved a n :: rrest ->
  truthy (refreshToken (store w)) = true ->
  user (store w) = Some u ->
  exists e w',
    attempt (onRejected (attempt reject)) c w = (Rejected e, w')
    /\ response e = Some (401, b2)
    /\ _retry (config e) = true
    /\ events w'
       = (events w
          ++ [Sent (onRequest (store w) c);
              RefreshPosted (refreshToken (store w));
              Sent (mkRequestConfig (url c) (Authorization (config e)) true)])%list
    /\ replies w' = rest
    /\ refreshReplies w' = rrest
    /\ store w' = mkAuthState (Some u) a n true (isLoading (store w))
                              (_hasHydrated (store w)).
Proof.
  intros Hc Hr Hrr Ht Hu.
  unfold attempt at 1. unfold send at 1. rewrite Hr. cbn [fst snd store].
  change ((200 <=? 401) && (401 <? 300)) with false. cbn iota.
  unfold onRejected, status_is.
  cbn [config response _retry store refreshReplies replies events].
  change (401 =? 401) with true. rewrite onRequest_retry, Hc. cbn [andb negb].
  rewrite Ht. cbn [negb]. unfold postRefresh. cbn [refreshReplies]. rewrite Hrr.
  unfold login, setAccessToken, with_store. cbn [user store]. rewrite Hu.
  unfold attempt, send, reject. cbn [replies store accessToken].
  change ((200 <=? 401) && (401 <? 300)) with false. cbn iota.
  do 2 eexists. split; [reflexivity|].
  cbn [response config _retry events replies refreshReplies store].
  rewrite <- !app_assoc. cbn [app].
  assert (url (onRequest (store w) c) = url c) as ->
      by (unfold onRequest; destruct (truthy (accessToken (store w))); reflexivity).
  repeat split.
  - unfold onRequest. cbn [accessToken _retry]. destruct (truthy a); reflexivity.
  - unfold onRequest. cbn [accessToken _retry url Authorization].
    destruct (truthy a); reflexivity.
Qed.

End RetryOnce.

Section RetryOnceClaim.
Import Client.

(** C8 (retry at most once).  For a request that has not been retried,
    [api] settles, never needs more than its own pass and one replay, posts
    to the refresh endpoint at most once and sends at most twice.  When the
    first answer is 401, the refresh succeeds and the replay is answered
    401 again, the caller gets that second 401 as a rejection, after exactly
    one refresh and one replay: nothing else is read from the network, and
    the refreshed session is left in place. *)
Theorem refresh_and_replay_at_most_once fuel c w :
  _retry c = false ->
  api (S (S fuel)) c w = api 2 c w
  /\ fst (api (S (S fuel)) c w) <> Pending
  /\ (count_refresh (events (snd (api (S (S fuel)) c w)))
      <= count_refresh (events w) + 1)%nat
  /\ (count_sent (events (snd (api (S (S fuel)) c w))) <= count_sent (events w) + 2)%nat
  /\ forall b1 b2 rest a n rrest u,
       replies w = Http 401 b1 :: Http 401 b2 :: rest ->
       refreshReplies w = RefreshResolved a n :: rrest ->
       truthy (refreshToken (store w)) = true ->
       user (store w) = Some u ->
       exists e w',
         api (S (S fuel)) c w = (Rejected e, w')
         /\ response e = Some (401, b2)
         /\ _retry (config e) = true
         /\ events w'
            = (events w
               ++ [Sent (onRequest (store w) c);
                   RefreshPosted (refreshToken (store w));
                   Sent (mkRequestConfig (url c) (Authorization (config e)) true)])%list
         /\ replies w' = rest
         /\ refreshReplies w' = rrest
         /\ store w' = mkAuthState (Some u) a n true (isLoading (store w))
                                   (_hasHydrated (store w)).
Proof.
  intro H. rewrite !api_closed_form.
  destruct (recovery_is_bounded c w H) as (Hp & Hr & Hs).
  repeat (split; [assumption || reflexivity|]).
  intros. eapply second_401_is_surfaced; eassumption.
Qed.

Lemma refresh_and_replay_at_most_once_witness :
  _retry ClientDemo.getProfile = false
  /\ exists e w',
       api 5 ClientDemo.getProfile ClientDemo.twice_401 = (Rejected e, w')
       /\ response e = Some (401, Plain "Unauthorized")
       /\ _retry (config e) = true
       /\ events w'
          = (events ClientDemo.twice_401
             ++ [Sent (onRequest (store ClientDemo.twice_401) ClientDemo.getProfile);
                 RefreshPosted (refreshToken (store ClientDemo.twice_401));
                 Sent (mkRequestConfig (url ClientDemo.getProfile)
                                       (Authorization (config e)) true)])%list
       /\ replies w' = [Http 200 (Plain "profile")]
       /\ refreshReplies w' = [RefreshResolved (Some "A3") (Some "R3")]
       /\ store w'
          = mkAuthState (Some ClientDemo.ann) (Some "A2") (Some "R2") true
                        (isLoading (store ClientDemo.twice_401))
                        (_hasHydrated (store ClientDemo.twice_401)).
Proof.
  split; [reflexivity|].
  apply (proj2 (proj2 (proj2 (proj2
           (refresh_and_replay_at_most_once 3 ClientDemo.getProfile ClientDemo.twice_401
                                            eq_refl))))
           (Plain "Unauthorized") (Plain "Unauthorized") [Http 200 (Plain "profile")]
           (Some "A2") (Some "R2") [RefreshResolved (Some "A3") (Some "R3")]
           ClientDemo.ann);
    reflexivity.
Defined.

(** Scenario 4: one 401, a silent refresh, and the replay succeeds. *)
Example silent_refresh_and_replay :
  fst (api 2 ClientDemo.getProfile ClientDemo.once_401) = Resolved 200 (Plain "profile")
  /\ events (snd (api 2 ClientDemo.getProfile ClientDemo.once_401))
     = [Sent (mkRequestConfig "/auth/me" (Some "Bearer expired") false);
        RefreshPosted (Some "validR");
        Sent (mkRequestConfig "/auth/me" (Some "Bearer A2") true)].
Proof. split; reflexivity. Qed.

End RetryOnceClaim.

(** ** The entry screen waits for hydration *)

Section Hydration.
Import Client.

Lemma run_app ticks ticks' sc : run (ticks ++ ticks') sc = run ticks' (run ticks sc).
Proof. apply fold_left_app. Qed.

(** While every render sees an unhydrated store, no timer is armed and
    nothing is added to the navigation history. *)
Lemma unhydrated_is_idle ticks sc :
  Forall unhydrated ticks -> timer sc = None ->
  timer (run ticks sc) = None /\ replaced (run ticks sc) = replaced sc.
Proof.
  intro H. revert sc. induction H as [|t ticks Ht _ IH]; intros sc Hsc; simpl; [auto|].
  destruct t as [s key|]; simpl in *.
  - destruct (IH (mkScreen (if is_some_key key then true else isLayoutReady sc)
                           (navigationEffect (isLayoutReady sc) s) (replaced sc)))
      as [H1 H2]; [|auto].
    simpl. unfold navigationEffect. rewrite Ht. now rewrite orb_true_r.
  - rewrite Hsc. auto.
Qed.

(** C9 (hydration gating).  As long as every render of the entry screen
    sees [_hasHydrated = false], whatever the rest of the store says, the
    screen never calls [router.replace] and has no timer armed; and when the
    store then hydrates from a persisted authenticated session, the screen
    does not redirect to the login route. *)
Theorem no_redirect_before_hydration ticks :
  Forall unhydrated ticks ->
  replaced (run ticks mounted) = []
  /\ timer (run ticks mounted) = None
  /\ forall p u s key,
       saved_isAuthenticated p = true ->
       saved_user p = Some u ->
       ~ In AuthLogin
           (replaced (run (ticks ++ [Render (rehydrate (Some p) s) key; TimerFires])
                          mounted)).
Proof.
  intro H. destruct (unhydrated_is_idle ticks mounted H eq_refl) as [Ht Hr].
  simpl in Hr. repeat split; auto.
  intros p u s key Hauth Huser. rewrite run_app. simpl.
  unfold navigationEffect, rehydrate, setHasHydrated, redirect. simpl.
  rewrite Hauth, Huser, Hr.
  destruct (isLayoutReady (run ticks mounted)); simpl.
  - destruct (hasCompletedOnboarding u); simpl; intros [K | []]; discriminate K.
  - tauto.
Qed.

Lemma no_redirect_before_hydration_witness :
  Forall unhydrated ClientDemo.before_hydration
  /\ replaced (run ClientDemo.before_hydration mounted) = []
  /\ timer (run ClientDemo.before_hydration mounted) = None.
Proof.
  assert (Forall unhydrated ClientDemo.before_hydration) as H
      by (repeat constructor).
  split; [exact H|].
  split; [exact (proj1 (no_redirect_before_hydration _ H))
         | exact (proj1 (proj2 (no_redirect_before_hydration _ H)))].
Defined.

(** Once hydrated from the persisted session, the screen goes home. *)
Example hydrated_goes_home :
  replaced (run (ClientDemo.before_hydration
                 ++ [Render (rehydrate (Some ClientDemo.persisted) initialState)
                            (Some "root");
                     TimerFires])
                mounted)
  = [TabsHome].
Proof. reflexivity. Qed.

End Hydration.

(** ** Malformed expiry strings *)

Section MalformedExpiry.
Import Backend Service.

Lemma malformed_examples :
  ~ Expiry.well_formed "1w" /\ ~ Expiry.well_formed "15min"
  /\ ~ Expiry.well_formed "900" /\ ~ Expiry.well_formed "".
Proof.
  repeat split; intro H; apply well_formed_expiry_match in H;
    destruct H as (ds & u & H); vm_compute in H; discriminate H.
Qed.

(** C10 as it holds of the code.  A string that is not an integer followed
    by one of d, h, m, s makes [parseExpiryToSeconds] return 900.  So a
    malformed [jwt.expiresIn] gives access tokens (and the module default)
    a lifetime of 900 seconds, and a malformed, non-empty
    [jwt.refreshExpiresIn] gives refresh credentials 900 seconds; an empty
    [jwt.refreshExpiresIn] is replaced by the default '7d' before it is
    parsed and gives 604800 seconds. *)
Theorem malformed_expiry_falls_back_to_900 s :
  ~ Expiry.well_formed s ->
  Expiry.parseExpiryToSeconds s = 900
  /\ (forall cfg, jwt_expiresIn cfg = Some s ->
                  accessExpiresIn cfg = 900 /\ jwtModuleExpiresIn cfg = 900)
  /\ (forall cfg, jwt_refreshExpiresIn cfg = Some s ->
                  (s <> "" -> refreshSeconds cfg = 900)
                  /\ (s = "" -> refreshSeconds cfg = 604800)).
Proof.
  intro H. pose proof (not_well_formed_no_match s H) as Hm.
  assert (Expiry.parseExpiryToSeconds s = 900) as Hp
      by (unfold Expiry.parseExpiryToSeconds; now rewrite Hm).
  split; [exact Hp|]. split.
  - intros cfg Hc. unfold accessExpiresIn, jwtModuleExpiresIn. rewrite Hc.
    destruct s as [|c r]; [split; reflexivity|].
    cbn [Expiry.or_default]. rewrite Hm. auto.
  - intros cfg Hc. unfold refreshSeconds. rewrite Hc. split.
    + intro Hne. now rewrite or_default_nonempty.
    + intros ->. reflexivity.
Qed.

Lemma malformed_expiry_falls_back_to_900_witness :
  ~ Expiry.well_formed "1w"
  /\ Expiry.parseExpiryToSeconds "1w" = 900
  /\ (forall cfg, jwt_expiresIn cfg = Some "1w" ->
                  accessExpiresIn cfg = 900 /\ jwtModuleExpiresIn cfg = 900)
  /\ (forall cfg, jwt_refreshExpiresIn cfg = Some "1w" ->
                  ("1w" <> "" -> refreshSeconds cfg = 900)
                  /\ ("1w" = "" -> refreshSeconds cfg = 604800)).
Proof.
  assert (~ Expiry.well_formed "1w") as H by exact (proj1 malformed_examples).
  split; [exact H|].
  exact (malformed_expiry_falls_back_to_900 "1w" H).
Defined.

(** C10 as stated fails for the refresh credential: the empty string is
    malformed, and a backend configured with [jwt.refreshExpiresIn = ""]
    issues refresh credentials that live 604800 seconds, not 900. *)
Lemma empty_refresh_expiry_lasts_seven_days :
  ~ Expiry.well_formed ""
  /\ Expiry.parseExpiryToSeconds "" = 900
  /\ refreshSeconds (mkConfig (Some "secret") (Some "15m") (Some "") None None) = 604800
  /\ refreshSeconds (mkConfig (Some "secret") (Some "15m") (Some "") None None) <> 900.
Proof.
  split; [exact (proj2 (proj2 (proj2 malformed_examples)))|].
  repeat split. vm_compute. discriminate.
Qed.

(** The lifetimes [generateTokens] hands out are the two computed above. *)
Lemma generateTokens_lifetimes cfg env uid e r w tk w' :
  generateTokens cfg env uid e r w = (Return tk, w') ->
  at_expiresIn (accessToken tk) = accessExpiresIn cfg
  /\ exists row, In row (refresh_tokens (db w'))
                 /\ RefreshToken.token row = refreshToken tk
                 /\ RefreshToken.expiresAt row = now env + 1000 * refreshSeconds cfg.
Proof.
  intro H. destruct (generateTokens_returns _ _ _ _ _ _ _ _ H) as (-> & _ & _ & Hrows).
  split; [reflexivity|]. rewrite Hrows. eexists. split.
  - apply in_or_app. right. left. reflexivity.
  - split; reflexivity.
Qed.

End MalformedExpiry.

(** * Further properties of the backend *)

(** ** Well-formed expiry strings *)

Section WellFormedExpiry.
Import Expiry.

Lemma expiry_match_complete ds u :
  all_digits ds -> ds <> "" -> is_unit u = true ->
  expiry_match (ds ++ String u "") = Some (ds, u).
Proof.
  intros Hall Hne Hu. unfold expiry_match.
  rewrite (span_digits_all _ _ Hall (unit_not_digit _ Hu)).
  destruct ds as [|c r]; [congruence|]. now rewrite Hu.
Qed.

Lemma digit_value_nonneg c : is_digit c = true -> 0 <= digit_value c <= 9.
Proof.
  unfold is_digit, digit_value. intro H. apply andb_true_iff in H.
  destruct H as [H1 H2]. apply Nat.leb_le in H1, H2. lia.
Qed.

Lemma parseInt_from_nonneg ds acc : all_digits ds -> 0 <= acc -> 0 <= parseInt_from acc ds.
Proof.
  revert acc. induction ds as [|c r IH]; cbn [parseInt_from all_digits];
    intros acc Hall Hacc; [exact Hacc|].
  destruct Hall as [Hc Hr]. apply IH; [exact Hr|].
  pose proof (digit_value_nonneg c Hc). lia.
Qed.

(** X1.  On an integer followed by a unit letter, [parseExpiryToSeconds]
    is the integer times the seconds of the unit (86400, 3600, 60, 1), and
    never negative. *)
Theorem expiry_is_value_times_unit ds :
  all_digits ds -> ds <> "" ->
  parseExpiryToSeconds (ds ++ "d") = parseInt ds * 86400
  /\ parseExpiryToSeconds (ds ++ "h") = parseInt ds * 3600
  /\ parseExpiryToSeconds (ds ++ "m") = parseInt ds * 60
  /\ parseExpiryToSeconds (ds ++ "s") = parseInt ds
  /\ 0 <= parseInt ds.
Proof.
  intros Hall Hne. unfold parseExpiryToSeconds.
  rewrite !expiry_match_complete by (auto; reflexivity).
  repeat split. now apply parseInt_from_nonneg.
Qed.

Lemma expiry_is_value_times_unit_witness :
  all_digits "15" /\ "15" <> ""
  /\ parseExpiryToSeconds ("15" ++ "d") = parseInt "15" * 86400
  /\ parseExpiryToSeconds ("15" ++ "h") = parseInt "15" * 3600
  /\ parseExpiryToSeconds ("15" ++ "m") = parseInt "15" * 60
  /\ parseExpiryToSeconds ("15" ++ "s") = parseInt "15"
  /\ 0 <= parseInt "15".
Proof.
  assert (all_digits "15") as H by (simpl; auto).
  assert ("15" <> "") as Hne by discriminate.
  split; [exact H|]. split; [exact Hne|].
  exact (expiry_is_value_times_unit "15" H Hne).
Defined.

(** X2.  The default lifetime the [JwtModule] factory computes and the
    lifetime [generateTokens] passes to [sign] are the same number for
    every configuration: the two copies of the parser in the module and in
    the service agree. *)
Theorem module_and_service_lifetimes_agree cfg :
  Service.jwtModuleExpiresIn cfg = Service.accessExpiresIn cfg.
Proof.
  unfold Service.jwtModuleExpiresIn, Service.accessExpiresIn, parseExpiryToSeconds.
  destruct (expiry_match (or_default (Backend.jwt_expiresIn cfg) "15m")) as [[ds u]|];
    reflexivity.
Qed.

End WellFormedExpiry.

(** ** Life of a refresh credential *)

Section CredentialLife.
Import Backend Prisma Service Spec Keys.

Lemma existsb_find {A} (p : A -> bool) l :
  existsb p l = true -> exists x, find p l = Some x.
Proof.
  induction l as [|y l IH]; simpl; [discriminate|].
  destruct (p y); [eauto | exact IH].
Qed.

Lemma existsb_map_same {A} (p : A -> bool) (f : A -> A) l :
  (forall x, p (f x) = p x) -> existsb p (map f l) = existsb p l.
Proof.
  intro H. induction l as [|y l IH]; simpl; [reflexivity|]. now rewrite H, IH.
Qed.

(** Revoking the stored credential, with the table it leaves. *)
Lemma revoke_stored_rows t at_ w stored :
  credential t w = Some stored ->
  refreshToken_update_revokedAt (RefreshToken.id stored) at_ w
  = (Return tt,
     mkWorld (mkDb (users (db w))
                   (map (fun r => if where_row_id (RefreshToken.id stored) r
                                  then revoke at_ r else r)
                        (refresh_tokens (db w))))
             (logger w)).
Proof.
  intro H. unfold refreshToken_update_revokedAt, bind, get_db, put_db. cbn [db fst snd].
  assert (existsb (where_row_id (RefreshToken.id stored)) (refresh_tokens (db w)) = true)
    as ->; [|reflexivity].
  apply find_some in H. apply existsb_exists. exists stored.
  split; [tauto | apply where_row_id_refl].
Qed.

Lemma fresh_after_revoking env (sel : RefreshToken.t -> bool) at_ w w' :
  refresh_tokens (db w')
  = map (fun r => if sel r then revoke at_ r else r) (refresh_tokens (db w)) ->
  fresh_uuids env w' = fresh_uuids env w.
Proof.
  intro E. unfold fresh_uuids. rewrite E.
  rewrite !existsb_map_same; [reflexivity| |]; intro x; destruct (sel x); reflexivity.
Qed.

(** [refreshTokens] on an accepted credential, step by step. *)
Lemma refreshTokens_accepted cfg env t w stored :
  credential t w = Some stored ->
  RefreshToken.revokedAt stored = None ->
  now env <= RefreshToken.expiresAt stored ->
  exists wa,
    spent t wa
    /\ users (db wa) = users (db w)
    /\ fresh_uuids env wa = fresh_uuids env w
    /\ refreshTokens cfg env t w
       = match find (where_id (RefreshToken.userId stored)) (users (db w)) with
         | None => (Throw (TypeError "Cannot read properties of null (reading 'id')"), wa)
         | Some u => generateTokens cfg env (User.id u) (User.email u) (User.role u) wa
         end.
Proof.
  intros Hf Hrev Hexp.
  destruct (revoke_stored t (now env) w stored Hf) as (wa & Hup & Husers & Hcred).
  pose proof (revoke_stored_rows t (now env) w stored Hf) as Hrows.
  rewrite Hup in Hrows. injection Hrows as Hwa.
  exists wa. split; [exists (revoke (now env) stored); split; [exact Hcred|discriminate]|].
  split; [exact Husers|]. split.
  - rewrite Hwa. eapply fresh_after_revoking. reflexivity.
  - unfold refreshTokens, refreshToken_findUnique.
    unfold bind at 1 2. unfold get_db at 1. cbn [db fst snd].
    unfold credential in Hf. rewrite Hf. unfold ret at 1. rewrite Hrev.
    assert ((RefreshToken.expiresAt stored <? now env) = false) as ->
        by (apply Z.ltb_ge; lia).
    cbn [is_null negb orb]. unfold bind. rewrite Hup.
    destruct (find (where_id (RefreshToken.userId stored)) (users (db w))); reflexivity.
Qed.



End CredentialLife.

Section CredentialBurn.
Import Backend Prisma Service Spec Keys.

(** X4.  Rotation is not atomic: once [refreshTokens] has accepted a
    credential, that credential is left revoked whether or not the new
    tokens could be issued.  With no signing secret configured the call
    throws the signer's error and the credential is spent all the same. *)
Theorem accepted_credential_is_spent_even_on_failure cfg env t w stored :
  credential t w = Some stored ->
  valid_at (now env) stored ->
  spent t (snd (refreshTokens cfg env t w))
  /\ (truthy (jwt_secret cfg) = false ->
      existsb (where_id (RefreshToken.userId stored)) (users (db w)) = true ->
      fst (refreshTokens cfg env t w)
      = Throw (Error "secretOrPrivateKey must have a value")).
Proof.
  intros Hf [Hrev Hexp].
  destruct (refreshTokens_accepted cfg env t w stored Hf Hrev Hexp)
    as (wa & Hspent & _ & _ & ->).
  destruct (find (where_id (RefreshToken.userId stored)) (users (db w))) as [u|] eqn:Hu.
  - split.
    + eapply spent_evolves; [apply evolves_generateTokens | exact Hspent].
    + intros Hsecret _. now rewrite generateTokens_cases, Hsecret.
  - split; [exact Hspent|]. intros _ Hex.
    apply existsb_find in Hex. destruct Hex as [x Hx]. congruence.
Qed.

Lemma accepted_credential_is_spent_even_on_failure_witness :
  credential "R1" Demo.signed_in
  = Some (RefreshToken.mk "k1" "R1" "u1" 604801000 1000 None)
  /\ valid_at (now Demo.e2) (RefreshToken.mk "k1" "R1" "u1" 604801000 1000 None)
  /\ spent "R1"
       (snd (refreshTokens (mkConfig None (Some "15m") (Some "7d") None None)
                           Demo.e2 "R1" Demo.signed_in))
  /\ fst (refreshTokens (mkConfig None (Some "15m") (Some "7d") None None)
                        Demo.e2 "R1" Demo.signed_in)
     = Throw (Error "secretOrPrivateKey must have a value").
Proof.
  assert (credential "R1" Demo.signed_in
          = Some (RefreshToken.mk "k1" "R1" "u1" 604801000 1000 None)) as H
      by (vm_compute; reflexivity).
  assert (valid_at (now Demo.e2) (RefreshToken.mk "k1" "R1" "u1" 604801000 1000 None))
    as Hv by (split; [reflexivity | vm_compute; discriminate]).
  split; [exact H|]. split; [exact Hv|].
  destruct (accepted_credential_is_spent_even_on_failure
              (mkConfig None (Some "15m") (Some "7d") None None)
              Demo.e2 "R1" Demo.signed_in _ H Hv) as [Hs Hthrow].
  split; [exact Hs|]. apply Hthrow; [reflexivity | vm_compute; reflexivity].
Defined.

(** X5.  A stored credential that has been logged out is dead for good:
    whatever the backend serves afterwards, [refreshTokens] refuses it with
    the unauthorized error and changes nothing. *)
Theorem logged_out_credential_stays_dead cfg env t w :
  credential t w <> None ->
  forall history env',
    refreshTokens cfg env' t (run cfg history (snd (logout env t w)))
    = (Throw (UnauthorizedException "Invalid refresh token"),
       run cfg history (snd (logout env t w))).
Proof.
  intros Hsome history env'. apply spent_refused.
  eapply spent_evolves; [apply evolves_run|].
  destruct (credential t w) as [stored|] eqn:Hf; [|congruence].
  exists (revoke (now env) stored). split; [|discriminate].
  unfold credential in *. rewrite logout_world. cbn [snd db refresh_tokens].
  rewrite find_map_token, Hf.
  - cbn [option_map]. apply find_some in Hf. destruct Hf as [_ Hf]. now rewrite Hf.
  - intro x. destruct (where_token t x); reflexivity.
Qed.

Lemma logged_out_credential_stays_dead_witness :
  credential "R1" Demo.signed_in <> None
  /\ refreshTokens Demo.cfg Demo.e4 "R1"
       (run Demo.cfg [(Demo.e3, PostGoogle "id-ann")]
            (snd (logout Demo.e2 "R1" Demo.signed_in)))
     = (Throw (UnauthorizedException "Invalid refresh token"),
        run Demo.cfg [(Demo.e3, PostGoogle "id-ann")]
            (snd (logout Demo.e2 "R1" Demo.signed_in))).
Proof.
  assert (credential "R1" Demo.signed_in <> None) as H by (vm_compute; discriminate).
  split; [exact H|].
  exact (logged_out_credential_stays_dead Demo.cfg Demo.e2 "R1" Demo.signed_in H
           [(Demo.e3, PostGoogle "id-ann")] Demo.e4).
Defined.

End CredentialBurn.

(** ** Registration and password login *)

Section Passwords.
Import Backend Prisma Service Spec Keys.

Lemma find_conj {A} (p q : A -> bool) l :
  find (fun x => p x && q x) l = find q (filter p l).
Proof.
  induction l as [|x l IH]; simpl; [reflexivity|].
  destruct (p x); simpl; [destruct (q x); [reflexivity | exact IH] | exact IH].
Qed.

Lemma existsb_conj_false {A} (p q : A -> bool) l :
  existsb p l = false -> existsb (fun x => p x && q x) l = false.
Proof.
  induction l as [|x l IH]; simpl; [reflexivity|].
  intro H. apply orb_false_iff in H. destruct H as [Hx Hl]. now rewrite Hx, IH.
Qed.

(** X6.  [register] refuses an email that any row of [users] already
    carries, whether that row is a Google account, a password account or a
    soft-deleted one, with [UnauthorizedException('Email already
    registered')], and writes nothing. *)
Theorem register_refuses_taken_email cfg env e p f l w u :
  In u (users (db w)) ->
  User.email u = e ->
  register cfg env e p f l w
  = (Throw (UnauthorizedException "Email already registered"), w).
Proof.
  intros Hin Hmail. unfold register, user_findUnique, bind, get_db. cbn [db fst snd].
  unfold ret at 1.
  assert (existsb (where_email e) (users (db w)) = true) as Hex
      by (apply existsb_exists; exists u; split; [exact Hin|];
          unfold where_email; rewrite Hmail; apply String.eqb_refl).
  destruct (existsb_find _ _ Hex) as [x ->]. reflexivity.
Qed.

(** Scenario 6 of the specification, on a soft-deleted Google account. *)
Lemma register_refuses_taken_email_witness :
  In (User.mk "u1" "a@b.com" None "google" (Some "g-123") (Some "Ann") None None
              USER false 1000 2000 (Some 2000))
     (users (db Demo.deleted))
  /\ register Demo.cfg Demo.e3 "a@b.com" "password" None None Demo.deleted
     = (Throw (UnauthorizedException "Email already registered"), Demo.deleted).
Proof.
  assert (In (User.mk "u1" "a@b.com" None "google" (Some "g-123") (Some "Ann") None None
                      USER false 1000 2000 (Some 2000))
             (users (db Demo.deleted))) as H by (vm_compute; auto).
  split; [exact H|].
  exact (register_refuses_taken_email Demo.cfg Demo.e3 "a@b.com" "password" None None
                                      Demo.deleted _ H eq_refl).
Defined.

(** X7.  Register, then log in.  After a successful [register], [login]
    with the same email and a password that bcrypt accepts against the
    stored hash returns the profile of the registered user (given unused
    identifiers for the new credential); with a password that bcrypt rejects
    it throws [UnauthorizedException('Invalid credentials')] and writes
    nothing. *)
Theorem register_then_login cfg env1 env2 e p f l w r1 w1 :
  register cfg env1 e p f l w = (Return r1, w1) ->
  bcrypt_hash env1 p <> "" ->
  fresh_uuids env2 w1 = true ->
  (forall p', bcrypt_compare env2 p' (bcrypt_hash env1 p) = true ->
              exists r2 w2, login cfg env2 e p' w1 = (Return r2, w2)
                            /\ user r2 = user r1
                            /\ at_sub (accessToken (tokens r2)) = p_id (user r1))
  /\ (forall p', bcrypt_compare env2 p' (bcrypt_hash env1 p) = false ->
                 login cfg env2 e p' w1
                 = (Throw (UnauthorizedException "Invalid credentials"), w1)).
Proof.
  intros H Hhash Hfresh.
  unfold register, user_findUnique in H. unfold bind at 1 2 in H.
  unfold get_db, ret in H. cbn [db fst snd] in H.
  destruct (find (where_email e) (users (db w))) as [x|] eqn:Hfind; [discriminate H|].
  unfold bind at 1 in H.
  destruct (user_create _ _) as [[u|x] wu] eqn:Hcr; [|discriminate H].
  unfold bind at 1 in H.
  destruct (generateTokens _ _ _ _ _ _) as [[tk|x] wt] eqn:Hg; [|discriminate H].
  injection H as <- <-.
  apply user_create_returns in Hcr. destruct Hcr as (-> & Hc0 & _ & _ & ->).
  destruct (generateTokens_returns _ _ _ _ _ _ _ _ Hg) as (_ & _ & Husers & _).
  pose proof (generateTokens_needs_secret _ _ _ _ _ _ _ _ Hg) as Hsecret.
  cbn [db users] in Husers. set (new := User.mk _ _ _ _ _ _ _ _ _ _ _ _ _) in *.
  assert (find (fun u => where_email e u && deletedAt_null u) (users (db wt)) = Some new)
    as Hlive.
  { rewrite Husers, find_app_fresh
      by (apply existsb_conj_false; now apply find_none_existsb).
    subst new. unfold where_email, deletedAt_null. cbn. now rewrite String.eqb_refl. }
  assert (truthy (Some (bcrypt_hash env1 p)) = true) as Htruthy
      by (destruct (bcrypt_hash env1 p); [congruence | reflexivity]).
  split; intros p' Hcmp; unfold login, user_findUnique; unfold bind at 1 2;
    unfold get_db, ret; cbn [db fst snd]; rewrite Hlive; subst new;
      cbn [User.provider User.password User.id User.email User.role String.eqb
           Ascii.eqb Bool.eqb negb show];
      rewrite Htruthy, Hcmp; cbn [negb]; [|reflexivity].
  unfold bind. rewrite generateTokens_ok.
  - do 2 eexists. split; [reflexivity|]. split; reflexivity.
  - exact Hsecret.
  - exact Hfresh.
  - rewrite Husers. apply existsb_exists. eexists. split.
    + apply in_or_app. right. left. reflexivity.
    + apply String.eqb_refl.
Qed.

End Passwords.

Section PasswordsMore.
Import Backend Prisma Service Spec Keys.

Lemma register_then_login_witness :
  register Demo.cfg Demo.e2 "c@d.com" "password" None None Demo.signed_in
  = (Return (mkAuthResponse
               (mkProfile "u2" "c@d.com" None None None USER false 2000)
               (mkTokens (mkAccessToken "u2" "c@d.com" USER 2000 900) "R2")),
     snd (register Demo.cfg Demo.e2 "c@d.com" "password" None None Demo.signed_in))
  /\ bcrypt_hash Demo.e2 "password" <> ""
  /\ fresh_uuids Demo.e3
       (snd (register Demo.cfg Demo.e2 "c@d.com" "password" None None Demo.signed_in))
     = true
  /\ exists r2 w2,
       login Demo.cfg Demo.e3 "c@d.com" "password"
             (snd (register Demo.cfg Demo.e2 "c@d.com" "password" None None
                            Demo.signed_in))
       = (Return r2, w2)
       /\ user r2 = mkProfile "u2" "c@d.com" None None None USER false 2000
       /\ at_sub (accessToken (tokens r2)) = "u2".
Proof.
  assert (register Demo.cfg Demo.e2 "c@d.com" "password" None None Demo.signed_in
          = (Return (mkAuthResponse
                       (mkProfile "u2" "c@d.com" None None None USER false 2000)
                       (mkTokens (mkAccessToken "u2" "c@d.com" USER 2000 900) "R2")),
             snd (register Demo.cfg Demo.e2 "c@d.com" "password" None None
                           Demo.signed_in)))
    as H by (vm_compute; reflexivity).
  assert (bcrypt_hash Demo.e2 "password" <> "") as Hh by (vm_compute; discriminate).
  assert (fresh_uuids Demo.e3
            (snd (register Demo.cfg Demo.e2 "c@d.com" "password" None None
                           Demo.signed_in)) = true)
    as Hf by (vm_compute; reflexivity).
  split; [exact H|]. split; [exact Hh|]. split; [exact Hf|].
  exact (proj1 (register_then_login Demo.cfg Demo.e2 Demo.e3 "c@d.com" "password"
                  None None Demo.signed_in _ _ H Hh Hf)
               "password" eq_refl).
Defined.

(** X8.  Password login on an account of another provider.  When the live
    row with the email has a provider other than "email" (a Google
    account), [login] throws [UnauthorizedException('Please use OAuth to
    sign in')] whatever the password, and writes nothing: the answer differs
    from the 'Invalid credentials' given for an unknown email. *)
Theorem password_login_refused_for_oauth_account cfg env e p w u :
  consistent w ->
  In u (users (db w)) ->
  User.email u = e ->
  User.deletedAt u = None ->
  User.provider u <> "email" ->
  login cfg env e p w
  = (Throw (UnauthorizedException "Please use OAuth to sign in"), w)
  /\ forall e', (forall x, In x (users (db w)) -> User.email x <> e') ->
                login cfg env e' p w
                = (Throw (UnauthorizedException "Invalid credentials"), w).
Proof.
  intros [_ Hemails] Hin Hmail Hlive Hprov. split.
  - unfold login, user_findUnique, bind, get_db. cbn [db fst snd]. unfold ret at 1.
    rewrite find_conj.
    pose proof (filter_unique_key User.email _ _ Hemails Hin) as Honly.
    rewrite Hmail in Honly. unfold where_email at 1. rewrite Honly.
    cbn [find]. unfold deletedAt_null. rewrite Hlive. cbn [is_null].
    destruct (String.eqb (User.provider u) "email") eqn:E; [|reflexivity].
    apply String.eqb_eq in E. congruence.
  - intros e' Hnone. apply login_excludes_deleted. intros x Hx Hm.
    unfold where_email in Hm. apply String.eqb_eq in Hm. exfalso. exact (Hnone x Hx Hm).
Qed.

Lemma password_login_refused_for_oauth_account_witness :
  consistent Demo.signed_in
  /\ In (User.mk "u1" "a@b.com" None "google" (Some "g-123") (Some "Ann") None None
                 USER false 1000 1000 None)
        (users (db Demo.signed_in))
  /\ login Demo.cfg Demo.e2 "a@b.com" "guess" Demo.signed_in
     = (Throw (UnauthorizedException "Please use OAuth to sign in"), Demo.signed_in).
Proof.
  assert (consistent Demo.signed_in) as Hc
      by (split; vm_compute; repeat constructor; simpl; tauto).
  assert (In (User.mk "u1" "a@b.com" None "google" (Some "g-123") (Some "Ann") None None
                      USER false 1000 1000 None)
             (users (db Demo.signed_in))) as Hin by (vm_compute; auto).
  split; [exact Hc|]. split; [exact Hin|].
  refine (proj1 (password_login_refused_for_oauth_account Demo.cfg Demo.e2 "a@b.com"
                   "guess" Demo.signed_in _ Hc Hin eq_refl eq_refl _)).
  discriminate.
Defined.

End PasswordsMore.

(** ** The constraints of the schema are invariants of the handlers *)

Section KeyedStore.
Import Backend Prisma Service Spec Keys.

Lemma keyed_refl w : keeps_keyed w w.
Proof. intro H. exact H. Qed.

Lemma keyed_trans a b c : keeps_keyed a b -> keeps_keyed b c -> keeps_keyed a c.
Proof. unfold keeps_keyed. auto. Qed.

Lemma same_db_keyed w w' : db w' = db w -> keeps_keyed w w'.
Proof.
  intros E (Hc & Hi & Hr). unfold well_keyed, consistent, identity_unique, references_kept.
  rewrite E. auto.
Qed.

Lemma same_identity_sym a b : same_identity a b = same_identity b a.
Proof.
  unfold same_identity, same_opt.
  rewrite (String.eqb_sym (User.provider b) (User.provider a)).
  destruct (User.providerId a), (User.providerId b); try reflexivity.
  f_equal. apply String.eqb_sym.
Qed.

Lemma not_among {A} (p : A -> bool) l x : existsb p l = false -> In x l -> p x = false.
Proof.
  intros H Hin. destruct (p x) eqn:E; [|reflexivity].
  assert (existsb p l = true) by (apply existsb_exists; eauto). congruence.
Qed.

Lemma keyed_user_create u : respects keeps_keyed (user_create u).
Proof.
  intros w Hk. pose proof (keeps_user_create u w (proj1 Hk)) as Hcons.
  destruct Hk as (Hc & Hi & Hr). revert Hcons.
  unfold user_create, bind, get_db, put_db, ret, throw. cbn [db fst snd].
  destruct (existsb (where_id (User.id u)) (users (db w)));
    [intros _; cbn [snd]; exact (conj Hc (conj Hi Hr))|].
  destruct (existsb (where_email (User.email u)) (users (db w)));
    [intros _; cbn [snd]; exact (conj Hc (conj Hi Hr))|].
  destruct (existsb (same_identity u) (users (db w))) eqn:H2;
    [intros _; cbn [snd]; exact (conj Hc (conj Hi Hr))|].
  cbn [snd]. intro Hcons. split; [exact Hcons|]. split.
  - intros a b Ha Hb Hab. cbn [db users] in Ha, Hb.
    apply in_app_or in Ha. apply in_app_or in Hb.
    destruct Ha as [Ha | [<- | []]], Hb as [Hb | [<- | []]]; auto.
    + rewrite same_identity_sym, (not_among _ _ _ H2 Ha) in Hab. discriminate.
    + rewrite (not_among _ _ _ H2 Hb) in Hab. discriminate.
  - intros r Hin. cbn [db users refresh_tokens] in *. rewrite existsb_app.
    now rewrite (Hr r Hin).
Qed.

Lemma in_others i x l : In x l -> where_id i x = false -> In x (others i l).
Proof. intros Hin H. unfold others. apply filter_In. now rewrite H. Qed.

Lemma keyed_user_update i f :
  (forall x, User.id (f x) = User.id x) ->
  (forall x, User.email (f x) = User.email x) ->
  respects keeps_keyed (user_update i f).
Proof.
  intros Hid Hmail w Hk. pose proof (keeps_user_update i f Hid Hmail w (proj1 Hk)) as Hcons.
  destruct Hk as (Hc & Hi & Hr).
  destruct (user_update i f w) as [[r|x] w'] eqn:Hup.
  - apply user_update_returns in Hup.
    destruct Hup as (u & Hfind & -> & _ & Hc2 & ->). cbn [snd] in *.
    split; [exact Hcons|]. split.
    + intros a' b' Ha Hb Hab. cbn [db users] in Ha, Hb.
      apply in_map_iff in Ha. destruct Ha as (a & <- & Ha).
      apply in_map_iff in Hb. destruct Hb as (b & <- & Hb).
      assert (forall x, In x (users (db w)) -> where_id i x = true -> x = u) as Huniq.
      { intros x Hx Hxi. unfold where_id in Hxi. apply String.eqb_eq in Hxi.
        pose proof (find_some _ _ Hfind) as [Hu Hui].
        unfold where_id in Hui. apply String.eqb_eq in Hui.
        pose proof (filter_unique_key User.id _ _ (proj1 Hc) Hx) as F1.
        pose proof (filter_unique_key User.id _ _ (proj1 Hc) Hu) as F2.
        rewrite Hxi, <- Hui, F2 in F1. congruence. }
      unfold in_place in *.
      destruct (where_id i a) eqn:Ea, (where_id i b) eqn:Eb.
      * now rewrite !Hid, (Huniq a Ha Ea), (Huniq b Hb Eb).
      * rewrite (Huniq a Ha Ea) in Hab.
        rewrite (not_among _ _ _ Hc2 (in_others i b _ Hb Eb)) in Hab. discriminate.
      * rewrite (Huniq b Hb Eb), same_identity_sym in Hab.
        rewrite (not_among _ _ _ Hc2 (in_others i a _ Ha Ea)) in Hab. discriminate.
      * now apply Hi.
    + intros r Hin. cbn [db users refresh_tokens] in *.
      rewrite existsb_map_same; [now apply Hr|].
      intro x. unfold in_place, where_id. destruct (String.eqb (User.id x) i); [|reflexivity].
      now rewrite Hid.
  - assert (w' = w) as ->; [|exact (conj Hc (conj Hi Hr))].
    revert Hup. unfold user_update, bind, get_db, put_db, ret, throw. cbn [db fst snd].
    destruct (find _ _); [|now intros [= <-]].
    destruct (existsb _ _); [now intros [= <-]|].
    destruct (existsb _ _); [now intros [= <-]|]. discriminate.
Qed.

End KeyedStore.

Section KeyedHandlers.
Import Backend Prisma Service Spec Keys.

Lemma keyed_revoking (sel : RefreshToken.t -> bool) at_ w w' :
  users (db w') = users (db w) ->
  refresh_tokens (db w')
  = map (fun r => if sel r then revoke at_ r else r) (refresh_tokens (db w)) ->
  keeps_keyed w w'.
Proof.
  intros Eu Et (Hc & Hi & Hr).
  unfold well_keyed, consistent, identity_unique, references_kept.
  rewrite Eu, Et. repeat split; try apply Hc; [exact Hi|].
  intros r Hin. apply in_map_iff in Hin. destruct Hin as (x & <- & Hx).
  destruct (sel x); [exact (Hr x Hx) | exact (Hr x Hx)].
Qed.

Lemma keyed_refreshToken_create i t uid ex cr :
  respects keeps_keyed (refreshToken_create i t uid ex cr).
Proof.
  intros w Hk. unfold refreshToken_create, bind, get_db, put_db, throw.
  cbn [db fst snd].
  destruct (existsb (where_row_id i) _); [exact Hk|].
  destruct (existsb (where_token t) _); [exact Hk|].
  destruct (existsb (where_id uid) (users (db w))) eqn:Hu; [|exact Hk].
  cbn [negb snd]. destruct Hk as (Hc & Hi & Hr). repeat split; try apply Hc; [exact Hi|].
  intros r Hin. cbn [db users refresh_tokens] in *.
  apply in_app_or in Hin. destruct Hin as [Hin | [<- | []]]; [now apply Hr | exact Hu].
Qed.

Lemma keyed_update_revokedAt i at_ :
  respects keeps_keyed (refreshToken_update_revokedAt i at_).
Proof.
  intro w. unfold refreshToken_update_revokedAt, bind, get_db, put_db, throw.
  cbn [db fst snd]. destruct (existsb _ _); [|apply keyed_refl].
  eapply keyed_revoking; reflexivity.
Qed.

Lemma keyed_updateMany t at_ :
  respects keeps_keyed (refreshToken_updateMany_revokedAt t at_).
Proof. intro w. eapply keyed_revoking; reflexivity. Qed.

Lemma keyed_refreshToken_findUnique t : respects keeps_keyed (refreshToken_findUnique t).
Proof.
  intro w. apply same_db_keyed. unfold refreshToken_findUnique, bind, get_db.
  cbn [db fst snd]. destruct (find _ _); reflexivity.
Qed.

Ltac keyed_using known :=
  repeat first
    [ known
    | apply respects_ret; exact keyed_refl
    | apply respects_throw; exact keyed_refl
    | apply keyed_user_create
    | apply keyed_user_update; reflexivity
    | apply keyed_refreshToken_create
    | apply keyed_update_revokedAt
    | apply keyed_updateMany
    | apply keyed_refreshToken_findUnique
    | apply respects_bind; [exact keyed_trans | | intro]
    | apply respects_try_catch; [exact keyed_trans | | intro]
    | match goal with
      | |- respects _ (match ?x with _ => _ end) => destruct x
      | |- respects _ (if ?b then _ else _) => destruct b
      end
    | intro; apply same_db_keyed; reflexivity ].

Lemma keyed_generateTokens cfg env uid e r :
  respects keeps_keyed (generateTokens cfg env uid e r).
Proof. unfold generateTokens, jwt_sign. keyed_using fail. Qed.

Lemma keyed_handle cfg env q w : keeps_keyed w (handle cfg env q w).
Proof.
  destruct q; simpl.
  - assert (respects keeps_keyed (loginWithGoogle cfg env idToken)) as K; [|apply K].
    unfold loginWithGoogle, verifyGoogleToken, axios_get_tokeninfo, user_upsert,
      user_findUnique.
    keyed_using ltac:(apply keyed_generateTokens).
  - assert (respects keeps_keyed (register cfg env email_ password_ firstName_ lastName_))
      as K; [|apply K].
    unfold register, user_findUnique. keyed_using ltac:(apply keyed_generateTokens).
  - assert (respects keeps_keyed (login cfg env email_ password_)) as K; [|apply K].
    unfold login, user_findUnique. keyed_using ltac:(apply keyed_generateTokens).
  - apply same_db_keyed. unfold getMe, user_findUnique, bind, get_db.
    cbn [db fst snd]. unfold ret at 1. destruct (find _ _); reflexivity.
  - assert (respects keeps_keyed (completeOnboarding env userId)) as K; [|apply K].
    unfold completeOnboarding. keyed_using fail.
  - assert (respects keeps_keyed (refreshTokens cfg env refreshToken_)) as K; [|apply K].
    unfold refreshTokens. keyed_using ltac:(apply keyed_generateTokens).
  - assert (respects keeps_keyed (logout env refreshToken_)) as K; [|apply K].
    unfold logout. keyed_using fail.
  - assert (respects keeps_keyed (remove env id_)) as K; [|apply K].
    unfold remove, findOne, user_findUnique. keyed_using fail.
Qed.

(** X9.  Every store the handlers can produce from the empty one
    satisfies the constraints of the schema: ids and emails of users are
    unique, no two users share a (provider, providerId) pair, and every
    refresh credential belongs to an existing user. *)
Theorem reachable_store_is_well_keyed cfg history :
  well_keyed (run cfg history empty_world).
Proof.
  assert (forall w, well_keyed w -> well_keyed (run cfg history w)) as H.
  { induction history as [|[env q] rest IH]; intros w Hw; simpl; [exact Hw|].
    apply IH. now apply keyed_handle. }
  apply H. split; [split; constructor|]. split; [intros a b []|intros r []].
Qed.

End KeyedHandlers.

Section KeyedTotality.
Import Backend Prisma Service Spec Keys.

Lemma where_id_eq i u : where_id i u = true <-> User.id u = i.
Proof. unfold where_id. apply String.eqb_eq. Qed.

(** On a well-keyed store, the row with a given id is found by its id. *)
Lemma find_by_id w u :
  well_keyed w -> In u (users (db w)) ->
  find (where_id (User.id u)) (users (db w)) = Some u.
Proof.
  intros ((Hids & _) & _) Hin. exact (find_unique_key User.id _ _ Hids Hin).
Qed.

(** An update that leaves email and identity alone passes the unique
    checks of a well-keyed store. *)
Lemma update_checks_pass w u f :
  well_keyed w -> In u (users (db w)) ->
  User.email (f u) = User.email u ->
  (forall x, same_identity (f u) x = same_identity u x) ->
  existsb (where_email (User.email (f u))) (others (User.id u) (users (db w))) = false
  /\ existsb (same_identity (f u)) (others (User.id u) (users (db w))) = false.
Proof.
  intros ((Hids & Hemails) & Hi & _) Hin Hmail Hsame. split.
  - destruct (existsb _ _) eqn:E; [|reflexivity]. exfalso.
    apply existsb_exists in E. destruct E as (x & Hx & Hxe).
    unfold others in Hx. apply filter_In in Hx. destruct Hx as [Hx Hne].
    rewrite Hmail in Hxe.
    pose proof (filter_unique_key User.email _ _ Hemails Hin) as F.
    assert (In x [u]) as Hxu by (rewrite <- F; apply filter_In; auto).
    destruct Hxu as [<- | []]. unfold where_id in Hne. now rewrite String.eqb_refl in Hne.
  - destruct (existsb _ _) eqn:E; [|reflexivity]. exfalso.
    apply existsb_exists in E. destruct E as (x & Hx & Hxe).
    unfold others in Hx. apply filter_In in Hx. destruct Hx as [Hx Hne].
    rewrite Hsame in Hxe. pose proof (Hi u x Hin Hx Hxe) as Hid.
    unfold where_id in Hne. now rewrite Hid, String.eqb_refl in Hne.
Qed.



End KeyedTotality.

(** ** Onboarding and soft deletion *)

Section UserLifecycle.
Import Backend Prisma Service Spec Keys.

Lemma in_place_self i f u : where_id i u = true -> in_place i f u = f u.
Proof. intro H. unfold in_place. now rewrite H. Qed.

(** The row of an updated user, looked up by id with a filter that the
    update does not affect. *)
Lemma find_updated w u f (q : User.t -> bool) :
  well_keyed w -> In u (users (db w)) ->
  (forall x, User.id (f x) = User.id x) ->
  find (fun x => where_id (User.id u) x && q x)
       (map (in_place (User.id u) f) (users (db w)))
  = if q (f u) then Some (f u) else None.
Proof.
  intros ((Hids & _) & _) Hin Hid. rewrite find_conj.
  rewrite filter_in_place
    by (intro x; unfold where_id; now rewrite Hid).
  pose proof (filter_unique_key User.id _ _ Hids Hin) as F.
  unfold where_id at 1. rewrite F. cbn [map find].
  rewrite in_place_self by apply String.eqb_refl. reflexivity.
Qed.

(** X11.  [completeOnboarding] on a well-keyed store.  For the id of a
    row it returns that user's profile with the onboarding flag set, leaves
    the credentials alone, and a following [getMe] of a live user shows the
    flag; for an id no row has it throws Prisma's record-not-found error,
    which is not an HTTP exception, and writes nothing. *)
Theorem completeOnboarding_sets_the_flag env i w :
  well_keyed w ->
  (forall u, In u (users (db w)) -> User.id u = i ->
     exists w',
       completeOnboarding env i w = (Return (select_profile (onboarding_done env u)), w')
       /\ p_id (select_profile (onboarding_done env u)) = i
       /\ p_hasCompletedOnboarding (select_profile (onboarding_done env u)) = true
       /\ refresh_tokens (db w') = refresh_tokens (db w)
       /\ (User.deletedAt u = None ->
           getMe i w' = (Return (select_profile (onboarding_done env u)), w')))
  /\ ((forall u, In u (users (db w)) -> User.id u <> i) ->
      completeOnboarding env i w = (Throw PrismaRecordNotFound, w)).
Proof.
  intro Hk. split.
  - intros u Hin <-.
    destruct (update_checks_pass w u (onboarding_done env) Hk Hin eq_refl
                                 (fun x => eq_refl)) as [H1 H2].
    unfold completeOnboarding. unfold bind.
    rewrite (user_update_ok _ _ u w (find_by_id w u Hk Hin) H1 H2).
    eexists. split; [reflexivity|]. repeat split.
    intro Hlive. unfold getMe, user_findUnique, bind, get_db. cbn [db users fst snd].
    unfold ret at 1.
    rewrite (find_updated w u (onboarding_done env) deletedAt_null Hk Hin)
      by reflexivity.
    unfold deletedAt_null. cbn [onboarding_done User.deletedAt]. rewrite Hlive.
    reflexivity.
  - intro Hnone. unfold completeOnboarding, user_update, bind, get_db.
    cbn [db fst snd].
    rewrite find_none_of_all; [reflexivity|].
    intros x Hx. destruct (where_id i x) eqn:E; [|reflexivity].
    apply where_id_eq in E. exfalso. exact (Hnone x Hx E).
Qed.

Lemma stays_refl i w : stays_gone i w w.
Proof. intro H. exact H. Qed.

Lemma stays_trans i a b c : stays_gone i a b -> stays_gone i b c -> stays_gone i a c.
Proof. unfold stays_gone. auto. Qed.

Lemma same_users_stays i w w' : users (db w') = users (db w) -> stays_gone i w w'.
Proof. intros E H. unfold gone in *. now rewrite E. Qed.

Lemma stays_user_create i u : respects (stays_gone i) (user_create u).
Proof.
  intros w Hg. pose proof Hg as [Hex Hall].
  unfold user_create, bind, get_db, put_db, ret, throw. cbn [db fst snd].
  destruct (existsb (where_id (User.id u)) (users (db w))) eqn:H0; [exact Hg|].
  destruct (existsb (where_email _) _); [exact Hg|].
  destruct (existsb (same_identity u) _); [exact Hg|].
  unfold gone. cbn [snd db users]. split.
  - rewrite existsb_app, Hex. reflexivity.
  - intros x Hx Hxi. apply in_app_or in Hx. destruct Hx as [Hx | [<- | []]]; [auto|].
    apply where_id_eq in Hxi. rewrite Hxi in H0. congruence.
Qed.

Lemma stays_user_update i j f :
  (forall x, User.id (f x) = User.id x) ->
  (forall x, soft_deleted x -> soft_deleted (f x)) ->
  respects (stays_gone i) (user_update j f).
Proof.
  intros Hid Hdel w Hg. pose proof Hg as [Hex Hall].
  unfold user_update, bind, get_db, put_db, ret, throw. cbn [db fst snd].
  destruct (find (where_id j) (users (db w))); [|exact Hg].
  destruct (existsb (where_email _) _); [exact Hg|].
  destruct (existsb (same_identity _) _); [exact Hg|].
  unfold gone. cbn [snd db users]. split.
  - rewrite existsb_map_same; [exact Hex|].
    intro x. unfold in_place. destruct (where_id j x); [|reflexivity].
    unfold where_id. now rewrite Hid.
  - intros x' Hx' Hxi. apply in_map_iff in Hx'. destruct Hx' as (x & <- & Hx).
    unfold in_place in *. destruct (where_id j x).
    + apply Hdel, (Hall x Hx). unfold where_id in *. now rewrite Hid in Hxi.
    + exact (Hall x Hx Hxi).
Qed.

Ltac stays_using known :=
  repeat first
    [ known
    | apply respects_ret; exact (stays_refl _)
    | apply respects_throw; exact (stays_refl _)
    | apply stays_user_create
    | apply stays_user_update;
      [reflexivity | intros x Hx; first [exact Hx | discriminate]]
    | apply respects_bind; [exact (stays_trans _) | | intro]
    | apply respects_try_catch; [exact (stays_trans _) | | intro]
    | match goal with
      | |- respects _ (match ?x with _ => _ end) => destruct x
      | |- respects _ (if ?b then _ else _) => destruct b
      end
    | intro; apply same_users_stays; reflexivity ].

Lemma stays_refreshToken_create k i t uid ex cr :
  respects (stays_gone k) (refreshToken_create i t uid ex cr).
Proof.
  intro w. apply same_users_stays. unfold refreshToken_create, bind, get_db.
  cbn [db fst snd].
  repeat (match goal with |- context [if ?b then _ else _] => destruct b end;
          try reflexivity).
Qed.

Lemma stays_update_revokedAt k i at_ :
  respects (stays_gone k) (refreshToken_update_revokedAt i at_).
Proof.
  intro w. apply same_users_stays. unfold refreshToken_update_revokedAt, bind, get_db.
  cbn [db fst snd]. destruct (existsb _ _); reflexivity.
Qed.

Lemma stays_refreshToken_findUnique k t :
  respects (stays_gone k) (refreshToken_findUnique t).
Proof.
  intro w. apply same_users_stays. unfold refreshToken_findUnique, bind, get_db.
  cbn [db fst snd]. destruct (find _ _); reflexivity.
Qed.

Lemma stays_generateTokens k cfg env uid e r :
  respects (stays_gone k) (generateTokens cfg env uid e r).
Proof.
  unfold generateTokens, jwt_sign.
  stays_using ltac:(apply stays_refreshToken_create).
Qed.

Lemma stays_handle k cfg env q w : stays_gone k w (handle cfg env q w).
Proof.
  destruct q; simpl.
  - assert (respects (stays_gone k) (loginWithGoogle cfg env idToken)) as K; [|apply K].
    unfold loginWithGoogle, verifyGoogleToken, axios_get_tokeninfo, user_upsert,
      user_findUnique.
    stays_using ltac:(apply stays_generateTokens).
  - assert (respects (stays_gone k)
              (register cfg env email_ password_ firstName_ lastName_)) as K; [|apply K].
    unfold register, user_findUnique. stays_using ltac:(apply stays_generateTokens).
  - assert (respects (stays_gone k) (login cfg env email_ password_)) as K; [|apply K].
    unfold login, user_findUnique. stays_using ltac:(apply stays_generateTokens).
  - apply same_users_stays. unfold getMe, user_findUnique, bind, get_db.
    cbn [db fst snd]. unfold ret at 1. destruct (find _ _); reflexivity.
  - assert (respects (stays_gone k) (completeOnboarding env userId)) as K; [|apply K].
    unfold completeOnboarding. stays_using fail.
  - assert (respects (stays_gone k) (refreshTokens cfg env refreshToken_)) as K;
      [|apply K].
    unfold refreshTokens.
    stays_using ltac:(first [ apply stays_generateTokens
                            | apply stays_update_revokedAt
                            | apply stays_refreshToken_findUnique ]).
  - apply same_users_stays. reflexivity.
  - assert (respects (stays_gone k) (remove env id_)) as K; [|apply K].
    unfold remove, findOne, user_findUnique. stays_using fail.
Qed.

Lemma stays_run k cfg history w : gone k w -> gone k (run cfg history w).
Proof.
  revert w. induction history as [|[env q] rest IH]; intros w Hw; simpl; [exact Hw|].
  apply IH. now apply stays_handle.
Qed.

Lemma gone_is_not_found i w :
  gone i w ->
  find (fun u => where_id i u && deletedAt_null u) (users (db w)) = None.
Proof. intros [_ Hall]. now apply live_lookup_misses_deleted. Qed.

End UserLifecycle.

Section SoftDeleteForGood.
Import Backend Prisma Service Spec Keys.

Lemma completeOnboarding_sets_the_flag_witness :
  well_keyed Demo.signed_in
  /\ exists w',
       completeOnboarding Demo.e2 "u1" Demo.signed_in
       = (Return (mkProfile "u1" "a@b.com" (Some "Ann") None None USER true 1000), w')
       /\ refresh_tokens (db w') = refresh_tokens (db Demo.signed_in)
       /\ getMe "u1" w'
          = (Return (mkProfile "u1" "a@b.com" (Some "Ann") None None USER true 1000), w').
Proof.
  assert (well_keyed Demo.signed_in) as Hk.
  { apply keyed_handle. split; [split; constructor|]. split; [intros a b []|intros r []]. }
  split; [exact Hk|].
  destruct (proj1 (completeOnboarding_sets_the_flag Demo.e2 "u1" Demo.signed_in Hk)
                  (User.mk "u1" "a@b.com" None "google" (Some "g-123") (Some "Ann") None
                           None USER false 1000 1000 None))
    as (w' & H1 & _ & _ & H2 & H3); [vm_compute; auto | reflexivity |].
  exists w'. split; [exact H1|]. split; [exact H2 | exact (H3 eq_refl)].
Defined.

(** X12.  Soft deletion.  On a well-keyed store [UsersService.remove]
    succeeds on a live user, and from then on, whatever the backend serves,
    that id stays deleted: [getMe], [findOne] and the guard's [validate]
    refuse it, and a second [remove] throws [NotFoundException] instead of
    succeeding again. *)
Theorem soft_delete_is_for_good cfg env i w u :
  well_keyed w ->
  In u (users (db w)) ->
  User.id u = i ->
  User.deletedAt u = None ->
  fst (remove env i w) = Return tt
  /\ forall history env',
       let w2 := run cfg history (snd (remove env i w)) in
       getMe i w2 = (Throw (UnauthorizedException "User not found"), w2)
       /\ findOne i w2 = (Throw (NotFoundException "User not found"), w2)
       /\ remove env' i w2 = (Throw (NotFoundException "User not found"), w2)
       /\ (i <> "" ->
           validate (Some i) w2 = (Throw (UnauthorizedException "User not found"), w2)).
Proof.
  intros Hk Hin <- Hlive.
  destruct (update_checks_pass w u (soft_delete env) Hk Hin eq_refl (fun x => eq_refl))
    as [H1 H2].
  assert (find (fun x => where_id (User.id u) x && deletedAt_null x) (users (db w))
          = Some u) as Hfound.
  { rewrite find_conj. destruct Hk as ((Hids & _) & _).
    pose proof (filter_unique_key User.id _ _ Hids Hin) as F.
    unfold where_id at 1. rewrite F. cbn [find]. unfold deletedAt_null.
    now rewrite Hlive. }
  assert (remove env (User.id u) w
          = (Return tt,
             mkWorld (mkDb (map (in_place (User.id u) (soft_delete env)) (users (db w)))
                           (refresh_tokens (db w)))
                     (logger w))) as Hrm.
  { unfold remove, findOne, user_findUnique. unfold bind at 1 2 3.
    unfold get_db, ret at 1. cbn [db fst snd]. rewrite Hfound. unfold ret at 1.
    unfold bind.
    now rewrite (user_update_ok _ _ u w (find_by_id w u Hk Hin) H1 H2). }
  rewrite Hrm. split; [reflexivity|]. cbn [snd].
  intros history env'. set (w2 := run cfg history _).
  assert (gone (User.id u) w2) as Hgone.
  { apply stays_run. split; cbn [db users].
    - apply existsb_exists. exists (in_place (User.id u) (soft_delete env) u).
      split; [now apply in_map|].
      rewrite in_place_self by apply String.eqb_refl. apply String.eqb_refl.
    - intros x' Hx' Hxi. apply in_map_iff in Hx'. destruct Hx' as (x & <- & Hx).
      unfold in_place in *. destruct (where_id (User.id u) x) eqn:E.
      + discriminate.
      + congruence. }
  pose proof (gone_is_not_found _ _ Hgone) as Hnone.
  repeat split.
  - unfold getMe, user_findUnique, bind, get_db. cbn [db fst snd]. unfold ret at 1.
    now rewrite Hnone.
  - unfold findOne, user_findUnique, bind, get_db. cbn [db fst snd]. unfold ret at 1.
    now rewrite Hnone.
  - unfold remove, findOne, user_findUnique. unfold bind at 1 2 3.
    unfold get_db, ret at 1. cbn [db fst snd]. now rewrite Hnone.
  - intro Hne. destruct (User.id u) as [|c r] eqn:E; [congruence|].
    unfold validate, user_findUnique, bind, get_db. cbn [db fst snd]. unfold ret at 1.
    now rewrite Hnone.
Qed.

Lemma soft_delete_is_for_good_witness :
  well_keyed Demo.signed_in
  /\ In (User.mk "u1" "a@b.com" None "google" (Some "g-123") (Some "Ann") None None
                 USER false 1000 1000 None)
        (users (db Demo.signed_in))
  /\ fst (remove Demo.e2 "u1" Demo.signed_in) = Return tt
  /\ getMe "u1" (run Demo.cfg [(Demo.e3, PostGoogle "id-ann")]
                     (snd (remove Demo.e2 "u1" Demo.signed_in)))
     = (Throw (UnauthorizedException "User not found"),
        run Demo.cfg [(Demo.e3, PostGoogle "id-ann")]
            (snd (remove Demo.e2 "u1" Demo.signed_in))).
Proof.
  assert (well_keyed Demo.signed_in) as Hk.
  { apply keyed_handle. split; [split; constructor|]. split; [intros a b []|intros r []]. }
  assert (In (User.mk "u1" "a@b.com" None "google" (Some "g-123") (Some "Ann") None None
                      USER false 1000 1000 None)
             (users (db Demo.signed_in))) as Hin by (vm_compute; auto).
  split; [exact Hk|]. split; [exact Hin|].
  destruct (soft_delete_is_for_good Demo.cfg Demo.e2 "u1" Demo.signed_in _ Hk Hin
                                    eq_refl eq_refl) as [H1 H2].
  split; [exact H1|].
  exact (proj1 (H2 [(Demo.e3, PostGoogle "id-ann")] Demo.e4)).
Defined.

End SoftDeleteForGood.

(** ** Pagination *)

Section Pages.
Import Backend Prisma Pagination.

Lemma ceil_quotient_bounds total_ limit_ :
  0 <= total_ -> 1 <= limit_ ->
  exists n, ceil_quotient total_ limit_ = Finite n
            /\ (n - 1) * limit_ < total_ <= n * limit_.
Proof.
  intros Ht Hl. unfold ceil_quotient.
  assert ((limit_ =? 0) = false) as -> by (apply Z.eqb_neq; lia).
  pose proof (Z.div_mod total_ limit_ ltac:(lia)) as Hdm.
  pose proof (Z.mod_pos_bound total_ limit_ ltac:(lia)) as Hm.
  destruct (total_ mod limit_ =? 0) eqn:E; eexists; (split; [reflexivity|]).
  - apply Z.eqb_eq in E. nia.
  - apply Z.eqb_neq in E. nia.
Qed.

Lemma in_firstn {A} n (l : list A) x : In x (firstn n l) -> In x l.
Proof. intro H. rewrite <- (firstn_skipn n l). apply in_or_app. now left. Qed.

Lemma in_skipn {A} n (l : list A) x : In x (skipn n l) -> In x l.
Proof. intro H. rewrite <- (firstn_skipn n l). apply in_or_app. now right. Qed.

(** X13.  For a count [total >= 0] and a page size [limit >= 1],
    [createPaginatedResult] reports the least number of pages that hold
    [total] rows, [hasNextPage] exactly when rows remain after page [page],
    and [hasPrevPage] exactly for pages after the first. *)
Theorem pagination_meta_is_exact {T} (rows : list T) total_ page_ limit_ :
  0 <= total_ -> 1 <= limit_ ->
  exists n,
    totalPages (meta (createPaginatedResult rows total_ page_ limit_)) = Finite n
    /\ (n - 1) * limit_ < total_ <= n * limit_
    /\ (hasNextPage (meta (createPaginatedResult rows total_ page_ limit_)) = true
        <-> page_ * limit_ < total_)
    /\ (hasPrevPage (meta (createPaginatedResult rows total_ page_ limit_)) = true
        <-> 1 < page_)
    /\ data (createPaginatedResult rows total_ page_ limit_) = rows.
Proof.
  intros Ht Hl. destruct (ceil_quotient_bounds total_ limit_ Ht Hl) as (n & Hn & Hb).
  exists n. unfold createPaginatedResult. cbn [meta totalPages hasNextPage hasPrevPage data].
  rewrite Hn. cbn [less_than]. split; [reflexivity|]. split; [exact Hb|].
  split; [|split; [apply Z.ltb_lt | reflexivity]].
  rewrite Z.ltb_lt. split; intro; nia.
Qed.

Lemma pagination_meta_is_exact_witness :
  0 <= 25 /\ 1 <= 10
  /\ exists n,
       totalPages (meta (createPaginatedResult ["a"; "b"] 25 3 10)) = Finite n
       /\ (n - 1) * 10 < 25 <= n * 10
       /\ (hasNextPage (meta (createPaginatedResult ["a"; "b"] 25 3 10)) = true
           <-> 3 * 10 < 25)
       /\ (hasPrevPage (meta (createPaginatedResult ["a"; "b"] 25 3 10)) = true
           <-> 1 < 3)
       /\ data (createPaginatedResult ["a"; "b"] 25 3 10) = ["a"; "b"].
Proof.
  split; [lia|]. split; [lia|].
  apply (pagination_meta_is_exact ["a"; "b"] 25 3 10); lia.
Defined.

(** X14.  [UsersService.findAll] for page [page >= 1] of size
    [limit >= 1], under any ordering of the rows.  It writes nothing,
    returns at most [limit] rows, each the listing of a live user of the
    store, never a soft-deleted one; [total] counts the live users; and
    [hasNextPage] holds exactly when live users remain after this page. *)
Theorem findAll_lists_live_users orderBy page_ limit_ w :
  (forall l, Permutation (orderBy l) l) ->
  (1 <= page_)%nat -> (1 <= limit_)%nat ->
  exists res,
    findAll orderBy page_ limit_ w = (Return res, w)
    /\ (length (data res) <= limit_)%nat
    /\ (forall row, In row (data res) ->
          exists u, In u (users (db w)) /\ User.deletedAt u = None
                    /\ row = select_listed u)
    /\ total (meta res) = Z.of_nat (length (filter deletedAt_null (users (db w))))
    /\ (hasNextPage (meta res) = true
        <-> skipn (page_ * limit_) (orderBy (filter deletedAt_null (users (db w)))) <> []).
Proof.
  intros Hperm Hp Hl. unfold findAll, bind, get_db, ret. cbn [db fst snd].
  eexists. split; [reflexivity|].
  set (live := filter deletedAt_null (users (db w))).
  cbn [data meta createPaginatedResult total hasNextPage]. repeat split.
  - rewrite length_map, length_firstn. lia.
  - intros row Hrow. apply in_map_iff in Hrow. destruct Hrow as (u & <- & Hu).
    apply in_firstn, in_skipn in Hu.
    apply (Permutation_in _ (Hperm live)) in Hu. subst live.
    apply filter_In in Hu. destruct Hu as [Hin Hlive]. exists u.
    repeat split; auto. unfold deletedAt_null in Hlive.
    now destruct (User.deletedAt u).
  - destruct (ceil_quotient_bounds (Z.of_nat (length live)) (Z.of_nat limit_)
                                   ltac:(lia) ltac:(lia)) as (n & -> & Hb).
    cbn [less_than]. intros H Hnil. apply Z.ltb_lt in H.
    apply (f_equal (@length _)) in Hnil. rewrite length_skipn in Hnil.
    rewrite (Permutation_length (Hperm live)) in Hnil. cbn [length] in Hnil. nia.
  - destruct (ceil_quotient_bounds (Z.of_nat (length live)) (Z.of_nat limit_)
                                   ltac:(lia) ltac:(lia)) as (n & -> & Hb).
    cbn [less_than]. intro Hne. apply Z.ltb_lt.
    assert (length (skipn (page_ * limit_) (orderBy live)) <> 0)%nat as Hlen
        by (intro E; apply Hne; now apply length_zero_iff_nil).
    rewrite length_skipn, (Permutation_length (Hperm live)) in Hlen. nia.
Qed.

Lemma findAll_lists_live_users_witness :
  (forall l : list User.t, Permutation ((fun x => x) l) l)
  /\ (1 <= 1)%nat /\ (1 <= 10)%nat
  /\ exists res,
       findAll (fun x => x) 1 10 Demo.deleted = (Return res, Demo.deleted)
       /\ (length (data res) <= 10)%nat
       /\ (forall row, In row (data res) ->
             exists u, In u (users (db Demo.deleted)) /\ User.deletedAt u = None
                       /\ row = select_listed u)
       /\ total (meta res)
          = Z.of_nat (length (filter deletedAt_null (users (db Demo.deleted))))
       /\ (hasNextPage (meta res) = true
           <-> skipn (1 * 10) ((fun x => x) (filter deletedAt_null
                                                    (users (db Demo.deleted)))) <> []).
Proof.
  assert (forall l : list User.t, Permutation ((fun x => x) l) l) as H
      by (intro l; apply Permutation_refl).
  split; [exact H|]. split; [lia|]. split; [lia|].
  apply (findAll_lists_live_users (fun x => x) 1 10 Demo.deleted H); lia.
Defined.

End Pages.

(** * Further properties of the client *)

(** ** The request pipeline, case by case *)

Section Pipeline.
Import Client Screens.

(** X15.  A failure that is not a 401 (no response at all, or a status
    outside 2xx other than 401) goes to the caller as it is, after one
    send: no refresh is attempted and the session is not touched. *)
Theorem other_failures_pass_through fuel c w r rest :
  replies w = r :: rest ->
  not_a_401 r = true ->
  api (S fuel) c w
  = (Rejected (mkAxiosError (onRequest (store w) c) (response_of r)),
     mkWorld (store w) rest (refreshReplies w)
             (events w ++ [Sent (onRequest (store w) c)])).
Proof.
  intros Hr Hn. cbn [api]. unfold attempt, send. rewrite Hr.
  destruct r as [status body|]; cbn [not_a_401 response_of] in *.
  - apply andb_true_iff in Hn. destruct Hn as [H2 H4].
    apply negb_true_iff in H2, H4. rewrite H2.
    unfold onRejected, status_is. cbn [response config]. now rewrite H4.
  - unfold onRejected, status_is. cbn [response config]. reflexivity.
Qed.

Lemma other_failures_pass_through_witness :
  replies (mkWorld ClientDemo.session [Http 500 (Plain "boom")] [] [])
  = [Http 500 (Plain "boom")]
  /\ not_a_401 (Http 500 (Plain "boom")) = true
  /\ api 3 ClientDemo.getProfile (mkWorld ClientDemo.session [Http 500 (Plain "boom")] [] [])
     = (Rejected (mkAxiosError (mkRequestConfig "/auth/me" (Some "Bearer expired") false)
                               (Some (500, Plain "boom"))),
        mkWorld ClientDemo.session [] []
                [Sent (mkRequestConfig "/auth/me" (Some "Bearer expired") false)]).
Proof.
  split; [reflexivity|]. split; [reflexivity|].
  exact (other_failures_pass_through 2 ClientDemo.getProfile
           (mkWorld ClientDemo.session [Http 500 (Plain "boom")] [] [])
           (Http 500 (Plain "boom")) [] eq_refl eq_refl).
Defined.



(** X17.  A 401 that cannot be recovered from: the store holds no refresh
    token, or the refresh call is rejected, or it resolves while the store
    has no user.  The session is cleared, the original 401 goes to the
    caller, marked as retried, and the request is not replayed; the refresh
    endpoint has been called at most once. *)
Theorem unrecoverable_401_clears_the_session fuel c w b rest :
  _retry c = false ->
  replies w = Http 401 b :: rest ->
  recoverable w = false ->
  exists w',
    api (S fuel) c w
    = (Rejected (mkAxiosError
                   (mkRequestConfig (url c) (Authorization (onRequest (store w) c)) true)
                   (Some (401, b))),
       w')
    /\ store w' = mkAuthState None None None false (isLoading (store w))
                              (_hasHydrated (store w))
    /\ replies w' = rest
    /\ count_sent (events w') = (count_sent (events w) + 1)%nat
    /\ (count_refresh (events w') <= count_refresh (events w) + 1)%nat
    /\ In SignedOut (events w').
Proof.
  intros Hc Hr Hrec. cbn [api]. unfold attempt, send. rewrite Hr.
  change ((200 <=? 401) && (401 <? 300)) with false. cbn iota.
  assert (url (onRequest (store w) c) = url c) as Hurl
      by (unfold onRequest; destruct (truthy (accessToken (store w))); reflexivity).
  unfold onRejected, status_is. cbn [config response store refreshReplies replies events].
  change (401 =? 401) with true. rewrite onRequest_retry, Hc, Hurl. cbn [andb negb].
  unfold recoverable in Hrec.
  destruct (truthy (refreshToken (store w))) eqn:Ht; cbn [negb andb] in *.
  - unfold postRefresh, onRefreshError, with_store, login, setAccessToken, logout.
    cbn [refreshReplies store events replies user isLoading _hasHydrated].
    destruct (refreshReplies w) as [|[a n|] rr];
      cbn [fst snd events store replies refreshReplies user isLoading _hasHydrated];
      try (destruct (user (store w)); [discriminate Hrec|]);
      (eexists; split; [reflexivity|];
       cbn [store replies events isLoading _hasHydrated];
       repeat split;
       rewrite ?count_sent_app, ?count_refresh_app; cbn; try lia;
       apply in_or_app; right; simpl; tauto).
  - unfold onRefreshError, logout. eexists. split; [reflexivity|].
    cbn [store replies events isLoading _hasHydrated]. repeat split;
      rewrite ?count_sent_app, ?count_refresh_app; cbn; try lia.
    apply in_or_app; right; simpl; tauto.
Qed.

End Pipeline.

Section PipelineRecovery.
Import Client Screens.

Lemma unrecoverable_401_clears_the_session_witness :
  _retry ClientDemo.getProfile = false
  /\ replies (mkWorld ClientDemo.session [Http 401 (Plain "Unauthorized")]
                      [RefreshRejected] [])
     = [Http 401 (Plain "Unauthorized")]
  /\ recoverable (mkWorld ClientDemo.session [Http 401 (Plain "Unauthorized")]
                          [RefreshRejected] []) = false
  /\ exists w',
       api 2 ClientDemo.getProfile
           (mkWorld ClientDemo.session [Http 401 (Plain "Unauthorized")]
                    [RefreshRejected] [])
       = (Rejected (mkAxiosError
                      (mkRequestConfig "/auth/me" (Some "Bearer expired") true)
                      (Some (401, Plain "Unauthorized"))),
          w')
       /\ store w' = mkAuthState None None None false false true
       /\ replies w' = []
       /\ count_sent (events w') = 1%nat
       /\ (count_refresh (events w') <= 1)%nat
       /\ In SignedOut (events w').
Proof.
  split; [reflexivity|]. split; [reflexivity|]. split; [reflexivity|].
  exact (unrecoverable_401_clears_the_session 1 ClientDemo.getProfile
           (mkWorld ClientDemo.session [Http 401 (Plain "Unauthorized")]
                    [RefreshRejected] [])
           (Plain "Unauthorized") [] eq_refl eq_refl eq_refl).
Defined.

(** X18.  A 401 that is recovered from.  With a refresh token and a user
    in the store and a refresh call that resolves, a 401 followed by a 2xx
    answer to the replay resolves the caller's request with the replay's
    unwrapped data; the store then holds the new access and refresh tokens
    for the same user, and the replay was sent marked as retried with the
    new bearer. *)
Theorem recovered_401_replays_with_new_tokens fuel c w b1 status b2 rest a n rrest u :
  _retry c = false ->
  replies w = Http 401 b1 :: Http status b2 :: rest ->
  200 <= status < 300 ->
  refreshReplies w = RefreshResolved a n :: rrest ->
  truthy (refreshToken (store w)) = true ->
  user (store w) = Some u ->
  recoverable w = true
  /\ api (S (S fuel)) c w
     = (Resolved status (onFulfilled b2),
        mkWorld (mkAuthState (Some u) a n true (isLoading (store w))
                             (_hasHydrated (store w)))
                rest rrest
                (events w
                 ++ [Sent (onRequest (store w) c);
                     RefreshPosted (refreshToken (store w));
                     Sent (mkRequestConfig (url c) (Some ("Bearer " ++ show a)) true)])).
Proof.
  intros Hc Hr Hs Hrr Ht Hu. split.
  - unfold recoverable. now rewrite Ht, Hrr, Hu.
  - rewrite api_closed_form.
    unfold attempt at 1. unfold send at 1. rewrite Hr. cbn [fst snd store].
    change ((200 <=? 401) && (401 <? 300)) with false. cbn iota.
    assert (url (onRequest (store w) c) = url c) as Hurl
        by (unfold onRequest; destruct (truthy (accessToken (store w))); reflexivity).
    unfold onRejected, status_is.
    cbn [config response _retry store refreshReplies replies events].
    change (401 =? 401) with true. rewrite onRequest_retry, Hc, Hurl. cbn [andb negb].
    rewrite Ht. cbn [negb]. unfold postRefresh. cbn [refreshReplies]. rewrite Hrr.
    unfold login, setAccessToken, with_store. cbn [user store]. rewrite Hu.
    unfold attempt, send. cbn [replies store accessToken events refreshReplies].
    assert (((200 <=? status) && (status <? 300)) = true) as ->
        by (apply andb_true_iff; split; [apply Z.leb_le | apply Z.ltb_lt]; lia).
    rewrite <- !app_assoc. cbn [app isLoading _hasHydrated].
    assert (forall s', accessToken s' = a ->
              onRequest s' (mkRequestConfig (url c) (Some ("Bearer " ++ show a)) true)
              = mkRequestConfig (url c) (Some ("Bearer " ++ show a)) true) as Hreplay
        by (intros s' <-; unfold onRequest; cbn [url _retry];
            destruct (truthy (accessToken s')); reflexivity).
    now rewrite Hreplay.
Qed.

Lemma recovered_401_replays_with_new_tokens_witness :
  _retry ClientDemo.getProfile = false
  /\ replies ClientDemo.once_401
     = [Http 401 (Plain "Unauthorized"); Http 200 (Envelope "profile")]
  /\ 200 <= 200 < 300
  /\ refreshReplies ClientDemo.once_401 = [RefreshResolved (Some "A2") (Some "R2")]
  /\ truthy (refreshToken (store ClientDemo.once_401)) = true
  /\ user (store ClientDemo.once_401) = Some ClientDemo.ann
  /\ api 2 ClientDemo.getProfile ClientDemo.once_401
     = (Resolved 200 (Plain "profile"),
        mkWorld (mkAuthState (Some ClientDemo.ann) (Some "A2") (Some "R2") true false true)
                [] []
                [Sent (mkRequestConfig "/auth/me" (Some "Bearer expired") false);
                 RefreshPosted (Some "validR");
                 Sent (mkRequestConfig "/auth/me" (Some "Bearer A2") true)]).
Proof.
  repeat (split; [reflexivity || lia|]).
  exact (proj2 (recovered_401_replays_with_new_tokens 0 ClientDemo.getProfile
                  ClientDemo.once_401 (Plain "Unauthorized") 200 (Envelope "profile")
                  [] (Some "A2") (Some "R2") [] ClientDemo.ann
                  eq_refl eq_refl ltac:(lia) eq_refl eq_refl eq_refl)).
Defined.

End PipelineRecovery.

(** ** The entry screen, the layouts and the hooks *)

Section EntryScreen.
Import Client Screens.

Lemma run_snoc ticks t sc : run (ticks ++ [t]) sc = step (run ticks sc) t.
Proof. unfold run. now rewrite fold_left_app. Qed.



(** X20.  A session survives a restart.  What [login] stored and
    [partialize] saved is what rehydration restores, with the hydration flag
    set; the entry screen then goes where the login hook went, home for an
    onboarded user and onboarding otherwise, and not to the login route. *)
Theorem session_survives_restart ticks u a r s s0 k key :
  Forall unhydrated ticks ->
  exists s1,
    onLoginSuccess u a r s
    = (Some s1, if hasCompletedOnboarding u then TabsHome else OnboardingRoute)
    /\ rehydrate (Some (partialize s1)) s0
       = mkAuthState (Some u) a r true (isLoading s0) true
    /\ replaced (run (ticks ++ [Render (rehydrate (Some (partialize s1)) s0) (Some k);
                                Render (rehydrate (Some (partialize s1)) s0) key;
                                TimerFires])
                     mounted)
       = [if hasCompletedOnboarding u then TabsHome else OnboardingRoute].
Proof.
  intro H. eexists. split; [reflexivity|]. split; [reflexivity|].
  destruct (unhydrated_is_idle ticks mounted H eq_refl) as [_ Hr].
  rewrite run_app. cbn [run fold_left step isLayoutReady is_some_key timer replaced].
  unfold navigationEffect, rehydrate, setHasHydrated, partialize, redirect.
  cbn [_hasHydrated isAuthenticated user saved_user saved_isAuthenticated negb orb
       timer replaced].
  rewrite Hr. reflexivity.
Qed.

Lemma session_survives_restart_witness :
  Forall unhydrated ClientDemo.before_hydration
  /\ exists s1,
       onLoginSuccess ClientDemo.ann (Some "A1") (Some "R1") initialState
       = (Some s1, TabsHome)
       /\ rehydrate (Some (partialize s1)) initialState
          = mkAuthState (Some ClientDemo.ann) (Some "A1") (Some "R1") true false true
       /\ replaced (run (ClientDemo.before_hydration
                         ++ [Render (rehydrate (Some (partialize s1)) initialState)
                                    (Some "root");
                             Render (rehydrate (Some (partialize s1)) initialState) None;
                             TimerFires])
                        mounted)
          = [TabsHome].
Proof.
  assert (Forall unhydrated ClientDemo.before_hydration) as H by (repeat constructor).
  split; [exact H|].
  exact (session_survives_restart ClientDemo.before_hydration ClientDemo.ann
           (Some "A1") (Some "R1") initialState initialState "root" None H).
Defined.

(** X21.  The guards of the two protected layouts.  Either layout renders
    its content only for a hydrated, authenticated store; on a hydrated
    store it renders exactly when it makes no redirect; and before hydration
    it neither renders nor redirects. *)
Theorem layouts_render_or_redirect s :
  (tabsRenders s = true ->
   _hasHydrated s = true /\ isAuthenticated s = true /\ tabsEffect s = None)
  /\ (onboardingRenders s = true ->
      _hasHydrated s = true /\ isAuthenticated s = true /\ onboardingEffect s = None)
  /\ (_hasHydrated s = true ->
      (tabsRenders s = true <-> tabsEffect s = None)
      /\ (onboardingRenders s = true <-> onboardingEffect s = None))
  /\ (_hasHydrated s = false ->
      tabsRenders s = false /\ tabsEffect s = None
      /\ onboardingRenders s = false /\ onboardingEffect s = None).
Proof.
  unfold tabsRenders, tabsEffect, onboardingRenders, onboardingEffect,
    onboarding_pending, onboarding_completed.
  destruct (_hasHydrated s), (isAuthenticated s), (user s) as [[i e []]|];
    cbn; repeat split; intros; try discriminate; try reflexivity; auto.
Qed.

(** X22.  The redirects do not chase each other.  When the tabs layout
    sends the user to onboarding, the onboarding layout renders and stays;
    when the onboarding layout sends the user home, the tabs layout renders
    and stays; and the route the entry screen picks for a hydrated store is
    one whose layout renders.  An authenticated store without a user is the
    odd case: the entry screen goes to login although both layouts would
    render. *)
Theorem redirects_settle s :
  (tabsEffect s = Some OnboardingRoute ->
   onboardingRenders s = true /\ onboardingEffect s = None)
  /\ (onboardingEffect s = Some TabsHome ->
      tabsRenders s = true /\ tabsEffect s = None)
  /\ (_hasHydrated s = true -> redirect s = TabsHome ->
      tabsRenders s = true /\ tabsEffect s = None)
  /\ (_hasHydrated s = true -> redirect s = OnboardingRoute ->
      onboardingRenders s = true /\ onboardingEffect s = None)
  /\ (_hasHydrated s = true -> isAuthenticated s = true -> user s = None ->
      redirect s = AuthLogin /\ tabsRenders s = true /\ onboardingRenders s = true).
Proof.
  unfold tabsRenders, tabsEffect, onboardingRenders, onboardingEffect,
    onboarding_pending, onboarding_completed, redirect.
  destruct (_hasHydrated s), (isAuthenticated s), (user s) as [[i e []]|];
    cbn; repeat split; intros; try discriminate; try reflexivity; auto.
Qed.

(** X23.  The hooks and the guards agree.  The route the login hooks
    navigate to is the one the entry screen computes from the store they
    leave; after [useCompleteOnboarding] an authenticated user is routed
    home; and [useProtectedRoute]'s default redirect is the redirect of the
    tabs layout with the hydration check left out, so that it sends an
    unhydrated, not yet authenticated store to the login route. *)
Theorem hooks_agree_with_guards s :
  (forall u a r s1 route,
     onLoginSuccess u a r s = (Some s1, route) -> redirect s1 = route)
  /\ (isAuthenticated s = true -> user s <> None ->
      redirect (fst (onOnboardingSuccess s)) = snd (onOnboardingSuccess s)
      /\ isAuthenticated (fst (onOnboardingSuccess s)) = true
      /\ accessToken (fst (onOnboardingSuccess s)) = accessToken s
      /\ refreshToken (fst (onOnboardingSuccess s)) = refreshToken s)
  /\ (user s = None -> fst (onOnboardingSuccess s) = s)
  /\ protectedRedirect AuthLogin s = tabsEffect (setHasHydrated true s)
  /\ protectedRedirect AuthLogin initialState = Some AuthLogin.
Proof.
  repeat split.
  - intros u a r s1 route H. unfold onLoginSuccess, login in H.
    injection H as <- <-. unfold redirect. cbn. reflexivity.
  - unfold onOnboardingSuccess, updateUser, setUser, redirect.
    destruct (user s) as [u|]; [|congruence]. cbn. now rewrite H.
  - unfold onOnboardingSuccess, updateUser, setUser.
    destruct (user s) as [u|]; [|congruence]. cbn. exact H.
  - unfold onOnboardingSuccess, updateUser, setUser. now destruct (user s).
  - unfold onOnboardingSuccess, updateUser, setUser. now destruct (user s).
  - intro H. unfold onOnboardingSuccess, updateUser. cbn. now rewrite H.
  - unfold protectedRedirect, tabsEffect, setHasHydrated, onboarding_pending. cbn.
    destruct (isAuthenticated s), (user s) as [[i e []]|]; reflexivity.
Qed.

End EntryScreen.

(** ** The language detector *)

Section Language.
Import I18n.


End Language.

(** * Further properties of the Google sign-in *)

Section GoogleAccounts.
Import Backend Prisma Service Spec Keys.




End GoogleAccounts.

Section GoogleAccountsMore.
Import Backend Prisma Service Spec Keys.


(** X27.  No handler deletes a refresh credential or clears its
    revocation: a credential found for a token is still found for it after
    any sequence of requests, and once revoked it stays revoked. *)
Theorem credentials_are_kept_and_stay_revoked cfg history t w stored :
  credential t w = Some stored ->
  exists stored',
    credential t (run cfg history w) = Some stored'
    /\ (RefreshToken.revokedAt stored <> None ->
        RefreshToken.revokedAt stored' <> None).
Proof. intro H. exact (evolves_run cfg history w t stored H). Qed.

Lemma credentials_are_kept_and_stay_revoked_witness :
  credential "R1" Demo.signed_in
  = Some (RefreshToken.mk "k1" "R1" "u1" 604801000 1000 None)
  /\ exists stored',
       credential "R1" (run Demo.cfg [(Demo.e2, DeleteUser "u1");
                                      (Demo.e3, PostLogout "R1");
                                      (Demo.e4, PostGoogle "id-ann")]
                            Demo.signed_in)
       = Some stored'
       /\ (RefreshToken.revokedAt (RefreshToken.mk "k1" "R1" "u1" 604801000 1000 None)
           <> None ->
           RefreshToken.revokedAt stored' <> None).
Proof.
  assert (credential "R1" Demo.signed_in
          = Some (RefreshToken.mk "k1" "R1" "u1" 604801000 1000 None)) as H
      by (vm_compute; reflexivity).
  split; [exact H|].
  exact (credentials_are_kept_and_stay_revoked Demo.cfg _ "R1" Demo.signed_in _ H).
Defined.

End GoogleAccountsMore.
